(** * The volumes API (cinder/api/v2/volumes.py)

    A shallow embedding of the view translator, the XML codec, the option
    filter and the volume controller, followed by the properties that the
    specification states about them.

    Python dictionaries are [gmap string val]; calls to the volume service,
    the volume-type lookup and the logger are recorded in a trace of events
    carried by a writer/error monad. *)

From Stdlib Require Import Ascii String.
From stdpp Require Import gmap strings list fin_maps pretty.

Local Set Warnings "-register-all".
Local Open Scope string_scope.

(** ** Python values *)

(** The values that request bodies, query strings and volume records hold.
    Mappings are keyed by strings, as the JSON and XML bodies and the
    database rows are; [VStr] stands for byte strings and unicode strings
    alike. *)
Inductive val :=
| VNone
| VBool (b : bool)
| VInt (z : Z)
| VStr (s : string)
| VList (l : list val)
| VDict (m : gmap string val).

Abbreviation dict := (gmap string val).

(** Python truth value testing ([if v:]). *)
Definition truthy (v : val) : bool :=
  match v with
  | VNone => false
  | VBool b => b
  | VInt z => negb (z =? 0)%Z
  | VStr s => negb (String.eqb s "")
  | VList l => negb (Nat.eqb (length l) 0)
  | VDict m => negb (Nat.eqb (size m) 0)
  end.

(** [isinstance(v, dict)]. *)
Definition isinstance_dict (v : val) : bool :=
  match v with VDict _ => true | _ => false end.

(** [v == s] for a string literal [s]. *)
Definition eq_str (v : val) (s : string) : bool :=
  match v with VStr s' => String.eqb s' s | _ => false end.

(** [d.get(k)], with the default [None]. *)
Definition dict_get (d : dict) (k : string) : val :=
  default VNone (d !! k).

(** ** Exceptions, events and the monad *)

Inductive exn :=
| KeyError (key : string)
| TypeError
| AttributeError
| ExpatError
| NotFound
| VolumeTypeNotFound
| HTTPNotFound (explanation : option string)
| HTTPBadRequest (explanation : string)
| HTTPUnprocessableEntity
| NonStringKey.

(** [except exception.NotFound] also catches the subclasses. *)
Definition isinstance_NotFound (e : exn) : bool :=
  match e with NotFound | VolumeTypeNotFound => true | _ => false end.

(** The client-input errors of the wire level: HTTP 400 and 422. *)
Definition is_client_input_error (e : exn) : bool :=
  match e with
  | HTTPBadRequest _ | HTTPUnprocessableEntity => true
  | _ => false
  end.

Inductive result (A : Type) :=
| Ok (a : A)
| Raise (e : exn).
Arguments Ok {A} a.
Arguments Raise {A} e.

Record RequestContext := { is_admin : bool }.

(** What the code does to its collaborators, in order. *)
Inductive event :=
| LogAudit (msg : string) (arg : val) (context : RequestContext)
| LogDebug (msg : string)
| GetVolumeTypeByName (context : RequestContext) (name : val)
| ApiGet (context : RequestContext) (id : val)
| ApiGetAll (context : RequestContext) (search_opts : dict)
| ApiGetSnapshot (context : RequestContext) (snapshot_id : val)
| ApiCreate (context : RequestContext) (size name description : val)
            (kwargs : dict)
| ApiUpdate (context : RequestContext) (volume update_dict : dict)
| ApiDelete (context : RequestContext) (volume : dict).

(** A computation logs events and either returns or raises. *)
Definition M (A : Type) : Type := (list event * result A)%type.

Definition ret {A} (a : A) : M A := ([], Ok a).

Definition bind {A B} (m : M A) (k : A → M B) : M B :=
  match m with
  | (tr, Ok a) => let '(tr', r) := k a in ((tr ++ tr')%list, r)
  | (tr, Raise e) => (tr, Raise e)
  end.

Definition raise {A} (e : exn) : M A := ([], Raise e).

Definition emit (ev : event) : M unit := ([ev], Ok tt).

(** A call to a collaborator: the event, then the collaborator's answer. *)
Definition call {A} (ev : event) (answer : result A) : M A := ([ev], answer).

(** [try: m except <caught by h>: h e]. *)
Definition try_except {A} (m : M A) (h : exn → option (M A)) : M A :=
  match m with
  | (tr, Ok a) => (tr, Ok a)
  | (tr, Raise e) =>
      match h e with
      | Some k => let '(tr', r) := k in ((tr ++ tr')%list, r)
      | None => (tr, Raise e)
      end
  end.

#[global] Instance M_ret : MRet M := @ret.
#[global] Instance M_bind : MBind M := λ A B k m, bind m k.

Definition trace {A} (m : M A) : list event := m.1.
Definition outcome {A} (m : M A) : result A := m.2.

(** [d[k]] on a dictionary. *)
Definition getitem (d : dict) (k : string) : M val :=
  match d !! k with
  | Some v => mret v
  | None => raise (KeyError k)
  end.

(** [v[k]] for a string [k] on any value: only mappings accept it. *)
Definition subscript (v : val) (k : string) : M val :=
  match v with
  | VDict d => getitem d k
  | _ => raise TypeError
  end.

(** [d[k].append(x)]: the list stored under [k] is extended in place. *)
Definition append_at (d : dict) (k : string) (x : val) : dict :=
  match d !! k with
  | Some (VList l) => <[k := VList (l ++ [x])%list]> d
  | _ => d
  end.

(** ** The collaborators that are not part of this module *)

Record VolumeAPI := {
  api_get : RequestContext → val → result dict;
  api_get_all : RequestContext → dict → result (list dict);
  api_get_snapshot : RequestContext → val → result val;
  api_create : RequestContext → val → val → val → dict → result dict;
  api_update : RequestContext → dict → dict → result unit;
  api_delete : RequestContext → dict → result unit
}.

(** A node of a parsed document: an element with its attributes and its
    children (the document node itself has the name [#document]). *)
Inductive node :=
| Node (name : string) (attrs : list (string * string)) (children : list node).

Definition nodeName (n : node) : string :=
  let 'Node name _ _ := n in name.
Definition attributes (n : node) : list (string * string) :=
  let 'Node _ attrs _ := n in attrs.
Definition childNodes (n : node) : list node :=
  let 'Node _ _ children := n in children.

(** The parts of a request the controller reads: the context stored in
    [req.environ] and the query parameters [req.GET]. *)
Record Request := {
  cinder_context : RequestContext;
  GET : dict
}.

(** Library functions and constants the module imports; they are left
    abstract. *)
Class Env := {
  (** [str(v)] on a list or a mapping (Python's [repr] of containers) *)
  str_container : val → string;
  (** [uuidutils.is_uuid_like] *)
  is_uuid_like : string → bool;
  (** [minidom.parseString]; [None] when it raises [ExpatError] *)
  parseString : string → option node;
  (** [volume_types.get_volume_type_by_name] *)
  get_volume_type_by_name : RequestContext → val → result val;
  (** [extract_metadata] of the inherited metadata deserializer *)
  extract_metadata : node → val;
  (** [common.MetadataTemplate], rendered on the object that holds it *)
  render_metadata : val → list node;
  (** [common.limited] *)
  limited : list dict → Request → list dict;
  (** the namespaces of [xmlutil] *)
  XMLNS_VOLUME_V2 : string;
  XMLNS_ATOM : string
}.

Section Translator.
Context `{!Env}.

(** [str(v)]. *)
Definition str (v : val) : string :=
  match v with
  | VNone => "None"
  | VBool true => "True"
  | VBool false => "False"
  | VInt z => pretty z
  | VStr s => s
  | _ => str_container v
  end.

(** ** The view translator *)

Definition _translate_attachment_summary_view
    (_context : RequestContext) (vol : dict) : M dict :=
  let d : dict := ∅ in
  volume_id ← getitem vol "id";
  (* NOTE(justinsb): We use the volume id as the id of the attachment object *)
  let d := <["id" := volume_id]> d in
  let d := <["volume_id" := volume_id]> d in
  server_id ← getitem vol "instance_uuid";
  let d := <["server_id" := server_id]> d in
  d ← (if truthy (dict_get vol "mountpoint")
       then mountpoint ← getitem vol "mountpoint";
            mret (<["device" := mountpoint]> d)
       else mret d);
  mret d.

Definition _translate_attachment_detail_view
    (_context : RequestContext) (vol : dict) : M dict :=
  d ← _translate_attachment_summary_view _context vol;
  (* No additional data / lookups at the moment *)
  mret d.

(** [dict((item['key'], item['value']) for item in metadata)]: later pairs
    overwrite earlier ones. A key that is not a string has no place in
    [dict] and ends the computation with [NonStringKey]. *)
Fixpoint dict_of_items (items : list val) (acc : dict) : M dict :=
  match items with
  | [] => mret acc
  | item :: rest =>
      k ← subscript item "key";
      v ← subscript item "value";
      match k with
      | VStr s => dict_of_items rest (<[s := v]> acc)
      | _ => raise NonStringKey
      end
  end.

(** Iterating a value as the generator expression above does. *)
Definition dict_of_metadata (metadata : val) : M dict :=
  match metadata with
  | VList items => dict_of_items items ∅
  | _ => raise TypeError
  end.

Definition _translate_volume_summary_view
    (context : RequestContext) (vol : dict) (image_id : val) : M dict :=
  let d : dict := ∅ in
  v ← getitem vol "id";
  let d := <["id" := v]> d in
  v ← getitem vol "status";
  let d := <["status" := v]> d in
  v ← getitem vol "size";
  let d := <["size" := v]> d in
  v ← getitem vol "availability_zone";
  let d := <["availability_zone" := v]> d in
  v ← getitem vol "created_at";
  let d := <["created_at" := v]> d in
  let d := <["attachments" := VList []]> d in
  attach_status ← getitem vol "attach_status";
  d ← (if eq_str attach_status "attached"
       then attachment ← _translate_attachment_detail_view context vol;
            mret (append_at d "attachments" (VDict attachment))
       else mret d);
  v ← getitem vol "display_name";
  let d := <["display_name" := v]> d in
  v ← getitem vol "display_description";
  let d := <["display_description" := v]> d in
  volume_type_id ← getitem vol "volume_type_id";
  d ← (if truthy volume_type_id && truthy (dict_get vol "volume_type")
       then volume_type ← getitem vol "volume_type";
            name ← subscript volume_type "name";
            mret (<["volume_type" := name]> d)
       else
         (* TODO(bcwaldon): remove str cast once we use uuids *)
         mret (<["volume_type" := VStr (str volume_type_id)]> d));
  v ← getitem vol "snapshot_id";
  let d := <["snapshot_id" := v]> d in
  let d := if truthy image_id then <["image_id" := image_id]> d else d in
  emit (LogAudit "vol=%s" (VDict vol) context);;
  if truthy (dict_get vol "volume_metadata") then
    let metadata := dict_get vol "volume_metadata" in
    md ← dict_of_metadata metadata;
    mret (<["metadata" := VDict md]> d)
  (* avoid circular ref when vol is a Volume instance *)
  else if truthy (dict_get vol "metadata")
          && isinstance_dict (dict_get vol "metadata") then
    md ← getitem vol "metadata";
    mret (<["metadata" := md]> d)
  else
    mret (<["metadata" := VDict ∅]> d).

Definition _translate_volume_detail_view
    (context : RequestContext) (vol : dict) (image_id : val) : M dict :=
  d ← _translate_volume_summary_view context vol image_id;
  (* No additional data / lookups at the moment *)
  mret d.

End Translator.

(** ** The XML templates *)

Module xmlutil.

(** Modelled from the spec: the template elements of [xmlutil], which is not
    among the sources. The spec says the encoder "encodes every scalar field
    from the Volume View as an attribute on the corresponding element" and
    "encodes the attachment list as a child collection". A template element
    has a tag, the key that selects its datum in the enclosing object (none:
    the enclosing object itself), the fields it encodes as attributes and its
    sub-elements; [MetadataTemplate] is the shared metadata template. *)
Inductive TemplateElement :=
| TemplateElem (tag : string) (selector : option string)
               (attrib : list string) (subs : list TemplateElement)
| MetadataTemplate.

(** Modelled from the spec: [elem.set(key)] lists one more field to encode
    as an attribute. *)
Definition set (elem : TemplateElement) (key : string) : TemplateElement :=
  match elem with
  | TemplateElem tag selector attrib subs =>
      TemplateElem tag selector (attrib ++ [key])%list subs
  | MetadataTemplate => MetadataTemplate
  end.

(** Modelled from the spec: [elem.append(sub)], which
    [SubTemplateElement(elem, ...)] also does, adds a sub-element. *)
Definition append (elem sub : TemplateElement) : TemplateElement :=
  match elem with
  | TemplateElem tag selector attrib subs =>
      TemplateElem tag selector attrib (subs ++ [sub])%list
  | MetadataTemplate => MetadataTemplate
  end.

(** Modelled from the spec: a template with its version and the namespaces
    of its root. *)
Record MasterTemplate := {
  root : TemplateElement;
  version : Z;
  nsmap : list (option string * string)
}.

Section Render.
Context `{!Env}.

(** Modelled from the spec: the data a template element is rendered on. A
    selector picks a field of the enclosing object; a list gives one element
    per item ("child collection"), a missing field gives none. *)
Definition select (selector : option string) (obj : val) : list val :=
  match selector with
  | None => [obj]
  | Some key =>
      match obj with
      | VDict d =>
          match d !! key with
          | Some (VList items) => items
          | Some v => [v]
          | None => []
          end
      | _ => []
      end
  end.

(** Modelled from the spec: the attributes of a rendered element, one for
    every listed field the datum has, holding the field's string form. *)
Definition render_attrib (attrib : list string) (datum : val)
    : list (string * string) :=
  omap (λ key,
          match datum with
          | VDict d => (λ v, (key, str v)) <$> d !! key
          | _ => None
          end) attrib.

(** Modelled from the spec: rendering a template on an object. *)
Fixpoint render (t : TemplateElement) (obj : val) : list node :=
  match t with
  | MetadataTemplate => render_metadata obj
  | TemplateElem tag selector attrib subs =>
      map (λ datum,
             Node tag (render_attrib attrib datum)
                  (concat (map (λ sub, render sub datum) subs)))
          (select selector obj)
  end.

(** Modelled from the spec: the namespace declarations of a "namespaced
    root", as the attributes a parser reports for them. *)
Definition render_nsmap (ns : list (option string * string))
    : list (string * string) :=
  map (λ '(prefix, uri),
         match prefix with
         | None => ("xmlns", uri)
         | Some p => ("xmlns:" ++ p, uri)
         end) ns.

(** Modelled from the spec: the tree a master template produces for an
    object, if it produces one. *)
Definition serialize (t : MasterTemplate) (obj : val) : option node :=
  match render (root t) obj with
  | Node tag attrs children :: _ =>
      Some (Node tag (render_nsmap (nsmap t) ++ attrs)%list children)
  | [] => None
  end.

End Render.
End xmlutil.

Definition make_attachment (elem : xmlutil.TemplateElement)
    : xmlutil.TemplateElement :=
  let elem := xmlutil.set elem "id" in
  let elem := xmlutil.set elem "server_id" in
  let elem := xmlutil.set elem "volume_id" in
  let elem := xmlutil.set elem "device" in
  elem.

(** The source attaches the sub-elements to their parents before it fills
    them in; the elements are built here from the inside out, which gives
    the same template. *)
Definition make_volume (elem : xmlutil.TemplateElement)
    : xmlutil.TemplateElement :=
  let elem := xmlutil.set elem "id" in
  let elem := xmlutil.set elem "status" in
  let elem := xmlutil.set elem "size" in
  let elem := xmlutil.set elem "availability_zone" in
  let elem := xmlutil.set elem "created_at" in
  let elem := xmlutil.set elem "display_name" in
  let elem := xmlutil.set elem "display_description" in
  let elem := xmlutil.set elem "volume_type" in
  let elem := xmlutil.set elem "snapshot_id" in
  let attachment :=
    make_attachment
      (xmlutil.TemplateElem "attachment" (Some "attachments") [] []) in
  let attachments :=
    xmlutil.TemplateElem "attachments" None [] [attachment] in
  let elem := xmlutil.append elem attachments in
  (* Attach metadata node *)
  xmlutil.append elem xmlutil.MetadataTemplate.

Section Templates.
Context `{!Env}.

Definition volume_nsmap : list (option string * string) :=
  [(None, XMLNS_VOLUME_V2); (Some "atom", XMLNS_ATOM)].

Definition VolumeTemplate : xmlutil.MasterTemplate :=
  let root := xmlutil.TemplateElem "volume" (Some "volume") [] [] in
  let root := make_volume root in
  {| xmlutil.root := root; xmlutil.version := 1;
     xmlutil.nsmap := volume_nsmap |}.

Definition VolumesTemplate : xmlutil.MasterTemplate :=
  let elem :=
    make_volume (xmlutil.TemplateElem "volume" (Some "volumes") [] []) in
  let root := xmlutil.TemplateElem "volumes" None [] [elem] in
  {| xmlutil.root := root; xmlutil.version := 1;
     xmlutil.nsmap := volume_nsmap |}.

End Templates.

(** The document node that holds a root element. *)
Definition document (root : node) : node := Node "#document" [] [root].

(** ** The XML deserializer *)

(** [for x in xs: acc = body acc x]. *)
Fixpoint for_each {A S : Type} (xs : list A) (acc : S) (body : S → A → M S)
    : M S :=
  match xs with
  | [] => mret acc
  | x :: xs' => acc' ← body acc x; for_each xs' acc' body
  end.

(** [node.getAttribute(attr)] of minidom: the empty string when the element
    has no such attribute; [None] has no [getAttribute]. *)
Definition getAttribute (n : option node) (attr : string) : M string :=
  match n with
  | None => raise AttributeError
  | Some n =>
      mret (default "" (snd <$> List.find (λ kv, String.eqb kv.1 attr)
                                          (attributes n)))
  end.

Module CommonDeserializer.
Section CommonDeserializer.
Context `{!Env}.

(** Modelled from the spec: [find_first_child_named] of the inherited
    deserializer ("locates the single volume node"): the first child with
    the given name, or [None]. *)
Definition find_first_child_named (parent : option node) (name : string)
    : M (option node) :=
  match parent with
  | None => raise AttributeError
  | Some p =>
      mret (List.find (λ n, String.eqb (nodeName n) name) (childNodes p))
  end.

Definition _extract_volume (node : node) : M dict :=
  let volume : dict := ∅ in
  volume_node ← find_first_child_named (Some node) "volume";
  let attributes := ["display_name"; "display_description"; "size";
                     "volume_type"; "availability_zone"] in
  volume ← for_each attributes volume (λ volume attr,
    a ← getAttribute volume_node attr;
    if truthy (VStr a)
    then a ← getAttribute volume_node attr;
         mret (<[attr := VStr a]> volume)
    else mret volume);
  metadata_node ← find_first_child_named volume_node "metadata";
  let volume :=
    match metadata_node with
    | Some n => <["metadata" := extract_metadata n]> volume
    | None => volume
    end in
  mret volume.

End CommonDeserializer.
End CommonDeserializer.

Module CreateDeserializer.
Section CreateDeserializer.
Context `{!Env}.

Definition default (string : string) : M val :=
  dom ← match parseString string with
        | Some dom => mret dom
        | None => raise ExpatError
        end;
  volume ← CommonDeserializer._extract_volume dom;
  mret (VDict {["body" := VDict {["volume" := VDict volume]}]}).

End CreateDeserializer.
End CreateDeserializer.

(** ** The option filter *)

(** [sep.join(l)]. *)
Definition join (sep : string) (l : list string) : string :=
  String.concat sep l.

(** The mapping is changed in place in the source; here the changed mapping
    is returned. *)
Definition remove_invalid_options (context : RequestContext)
    (search_options : dict) (allowed_search_options : list string) : M dict :=
  (* Remove search options that are not valid for non-admin API/context. *)
  if is_admin context then
    (* Allow all options *)
    mret search_options
  else
    (* Otherwise, strip out all unknown options *)
    let unknown_options :=
      filter (λ opt, opt ∉ allowed_search_options)
             (map_to_list search_options).*1 in
    let bad_options := join ", " unknown_options in
    let log_msg := "Removing options '" ++ bad_options ++ "' from query" in
    emit (LogDebug log_msg);;
    mret (foldl (λ search_options opt, delete opt search_options)
                search_options unknown_options).

(** ** The controller *)

(** [v is None]. *)
Definition is_None (v : val) : bool :=
  match v with VNone => true | _ => false end.

(** [v.get(k)]: only mappings have [get]. *)
Definition get (v : val) (k : string) : M val :=
  match v with
  | VDict d => mret (dict_get d k)
  | _ => raise AttributeError
  end.

Fixpoint is_substring (needle hay : string) : bool :=
  String.prefix needle hay
  || match hay with
     | EmptyString => false
     | String _ hay' => is_substring needle hay'
     end.

(** [k in v] for a string [k]. *)
Definition contains (v : val) (k : string) : M bool :=
  match v with
  | VDict d => mret (bool_decide (is_Some (d !! k)))
  | VList l => mret (existsb (λ x, eq_str x k) l)
  | VStr s => mret (is_substring k s)
  | _ => raise TypeError
  end.

(** [s.split('/').pop()]: what follows the last slash. *)
Fixpoint split_pop (s : string) (segment : string) : string :=
  match s with
  | EmptyString => segment
  | String c s' =>
      if Ascii.eqb c "/"%char then split_pop s' ""
      else split_pop s' (segment ++ String c "")
  end.

Record Response := { status_int : Z }.

Module VolumeController.

Record t := {
  volume_api : VolumeAPI;
  (** [ext_mgr.is_loaded] *)
  ext_mgr_is_loaded : string → bool
}.

(** Modelled from the spec: [is_valid_body] of the inherited controller,
    which is not among the sources: the "body must contain a volume key with
    a mapping value". *)
Definition is_valid_body (body : val) (entity_name : string) : bool :=
  match body with
  | VDict b =>
      match b !! entity_name with
      | Some (VDict _) => true
      | _ => false
      end
  | _ => false
  end.

Section VolumeController.
Context `{!Env}.

(** [except exception.NotFound: raise exc.HTTPNotFound()]. *)
Definition NotFound_to_HTTPNotFound {A} (e : exn) : option (M A) :=
  if isinstance_NotFound e then Some (raise (HTTPNotFound None)) else None.

Definition show (self : t) (req : Request) (id : val) : M val :=
  let context := cinder_context req in
  vol ← try_except
          (call (ApiGet context id) (api_get (volume_api self) context id))
          NotFound_to_HTTPNotFound;
  view ← _translate_volume_detail_view context vol VNone;
  mret (VDict {["volume" := VDict view]}).

Definition delete (self : t) (req : Request) (id : val) : M Response :=
  let context := cinder_context req in
  emit (LogAudit "Delete volume with id: %s" id context);;
  try_except
    (volume ← call (ApiGet context id) (api_get (volume_api self) context id);
     call (ApiDelete context volume)
          (api_delete (volume_api self) context volume))
    NotFound_to_HTTPNotFound;;
  mret {| status_int := 202 |}.

Definition _get_volume_search_options (self : t) : list string :=
  (* Return volume search options allowed by non-admin. *)
  ["display_name"; "status"].

Definition _items (self : t) (req : Request)
    (entity_maker : RequestContext → dict → val → M dict) : M val :=
  let search_opts : dict := ∅ in
  let search_opts := GET req ∪ search_opts in
  let context := cinder_context req in
  search_opts ← remove_invalid_options context search_opts
                  (_get_volume_search_options self);
  volumes ← call (ApiGetAll context search_opts)
                 (api_get_all (volume_api self) context search_opts);
  let limited_list := limited volumes req in
  res ← for_each limited_list []
          (λ res vol, v ← entity_maker context vol VNone;
                      mret (res ++ [VDict v])%list);
  mret (VDict {["volumes" := VList res]}).

Definition index (self : t) (req : Request) : M val :=
  _items self req _translate_volume_summary_view.

Definition detail (self : t) (req : Request) : M val :=
  _items self req _translate_volume_detail_view.

Definition _image_uuid_from_href (self : t) (image_href : val) : M string :=
  (* If the image href was generated by nova api, strip image_href
     down to an id. *)
  image_uuid ← try_except
    (match image_href with
     | VStr s => mret (split_pop s "")
     | _ => raise AttributeError
     end)
    (λ e, match e with
          | TypeError | AttributeError =>
              Some (raise (HTTPBadRequest "Invalid imageRef provided."))
          | _ => None
          end);
  if negb (is_uuid_like image_uuid) then
    raise (HTTPBadRequest "Invalid imageRef provided.")
  else
    mret image_uuid.

Definition create (self : t) (req : Request) (body : val) : M val :=
  if negb (is_valid_body body "volume") then
    raise HTTPUnprocessableEntity
  else
  let context := cinder_context req in
  volume ← subscript body "volume";
  let kwargs : dict := ∅ in
  req_volume_type ← get volume "volume_type";
  kwargs ← (if truthy req_volume_type then
              vt ← try_except
                     (call (GetVolumeTypeByName context req_volume_type)
                           (get_volume_type_by_name context req_volume_type))
                     (λ e, match e with
                           | VolumeTypeNotFound =>
                               Some (raise (HTTPNotFound
                                              (Some "Volume type not found.")))
                           | _ => None
                           end);
              mret (<["volume_type" := vt]> kwargs)
            else mret kwargs);
  metadata ← get volume "metadata";
  let kwargs := <["metadata" := metadata]> kwargs in
  snapshot_id ← get volume "snapshot_id";
  kwargs ← (if negb (is_None snapshot_id) then
              snapshot ← call (ApiGetSnapshot context snapshot_id)
                              (api_get_snapshot (volume_api self)
                                                context snapshot_id);
              mret (<["snapshot" := snapshot]> kwargs)
            else mret (<["snapshot" := VNone]> kwargs));
  size ← get volume "size";
  snapshot ← getitem kwargs "snapshot";
  size ← (if is_None size && negb (is_None snapshot) then
            subscript snapshot "volume_size"
          else mret size);
  emit (LogAudit "Create volume of %s GB" size context);;
  let image_href := VNone in
  let image_uuid := VNone in
  '(image_uuid, kwargs) ←
    (if ext_mgr_is_loaded self "os-image-create" then
       image_href ← get volume "imageRef";
       (if truthy snapshot_id && truthy image_href then
          raise (HTTPBadRequest
                   "Snapshot and image cannot be specified together.")
        else mret ());;
       if truthy image_href then
         image_uuid ← _image_uuid_from_href self image_href;
         mret (VStr image_uuid, <["image_id" := VStr image_uuid]> kwargs)
       else mret (image_uuid, kwargs)
     else mret (image_uuid, kwargs));
  availability_zone ← get volume "availability_zone";
  let kwargs := <["availability_zone" := availability_zone]> kwargs in
  display_name ← get volume "display_name";
  display_description ← get volume "display_description";
  new_volume ← call (ApiCreate context size display_name
                               display_description kwargs)
                    (api_create (volume_api self) context size display_name
                                display_description kwargs);
  (* TODO(vish): Instance should be None at db layer instead of
                 trying to lazy load, but for now we turn it into
                 a dict to avoid an error. *)
  retval ← _translate_volume_detail_view context new_volume image_uuid;
  mret (VDict {["volume" := VDict retval]}).

Definition update (self : t) (req : Request) (id : val) (body : val)
    : M val :=
  let context := cinder_context req in
  if negb (truthy body) then raise HTTPUnprocessableEntity else
  has_volume ← contains body "volume";
  if negb has_volume then raise HTTPUnprocessableEntity else
  volume ← subscript body "volume";
  let update_dict : dict := ∅ in
  let valid_update_keys :=
    ["display_name"; "display_description"; "metadata"] in
  update_dict ← for_each valid_update_keys update_dict (λ update_dict key,
    present ← contains volume key;
    if (present : bool) then
      v ← subscript volume key;
      mret (<[key := v]> update_dict)
    else mret update_dict);
  volume ← try_except
    (volume ← call (ApiGet context id) (api_get (volume_api self) context id);
     call (ApiUpdate context volume update_dict)
          (api_update (volume_api self) context volume update_dict);;
     mret volume)
    NotFound_to_HTTPNotFound;
  let volume := update_dict ∪ volume in
  view ← _translate_volume_detail_view context volume VNone;
  mret (VDict {["volume" := VDict view]}).

End VolumeController.
End VolumeController.

(** * Vocabulary of the specification *)

(** ** Volume records *)

(** The fields the translator reads with [vol[...]]. *)
Definition required_fields : list string :=
  ["id"; "status"; "size"; "availability_zone"; "created_at";
   "attach_status"; "display_name"; "display_description";
   "volume_type_id"; "snapshot_id"].

Definition has_field (vol : dict) (k : string) : bool :=
  bool_decide (is_Some (vol !! k)).

(** A key/value pair record of the metadata table. *)
Definition is_pair_record (item : val) : bool :=
  match item with
  | VDict p =>
      match p !! "key", p !! "value" with
      | Some (VStr _), Some _ => true
      | _, _ => false
      end
  | _ => false
  end.

(** A volume record as the volume service hands it over: it has the fields
    of a volume; when it is attached it names the instance; its embedded
    type object, when the type resolution reads it, has a name; its
    pair-list metadata, when there is any, is a list of pair records. *)
Definition well_formed (vol : dict) : bool :=
  forallb (has_field vol) required_fields
  && (if eq_str (dict_get vol "attach_status") "attached"
      then has_field vol "instance_uuid" else true)
  && (if truthy (dict_get vol "volume_type_id")
         && truthy (dict_get vol "volume_type")
      then match dict_get vol "volume_type" with
           | VDict t => bool_decide (is_Some (t !! "name"))
           | _ => false
           end
      else true)
  && (if truthy (dict_get vol "volume_metadata")
      then match dict_get vol "volume_metadata" with
           | VList items => forallb is_pair_record items
           | _ => false
           end
      else true).

(** ** Metadata resolution, in the words of the specification *)

(** The record carries metadata as a list of key/value pair records. *)
Definition pair_list (vol : dict) : option (list val) :=
  match vol !! "volume_metadata" with
  | Some (VList (item :: items)) => Some (item :: items)
  | _ => None
  end.

(** The record carries metadata as a direct mapping. *)
Definition direct_mapping (vol : dict) : option dict :=
  match vol !! "metadata" with
  | Some (VDict m) => Some m
  | _ => None
  end.

(** The mapping built from the pairs. *)
Definition mapping_of_pairs (items : list val) : dict :=
  foldl (λ acc item,
           match item with
           | VDict p =>
               match p !! "key", p !! "value" with
               | Some (VStr k), Some v => <[k := v]> acc
               | _, _ => acc
               end
           | _ => acc
           end) ∅ items.

Definition resolved_metadata (vol : dict) : dict :=
  match pair_list vol with
  | Some items => mapping_of_pairs items
  | None =>
      match direct_mapping vol with
      | Some m => m
      | None => ∅
      end
  end.

(** ** Volume-type resolution *)

(** The name of the embedded type object. *)
Definition embedded_type_name (vol : dict) : option val :=
  match vol !! "volume_type" with
  | Some (VDict t) => t !! "name"
  | _ => None
  end.

(** ** Attachments *)

(** A mount point is present on the record: the field holds a value that is
    neither null nor empty. *)
Definition has_mountpoint (vol : dict) : bool :=
  truthy (dict_get vol "mountpoint").

(** ** Update and create *)

(** The fields an update may change. *)
Definition mutable_fields : list string :=
  ["display_name"; "display_description"; "metadata"].

(** The submitted fields that an update may change. *)
Definition mutable_part (volume : dict) : dict :=
  filter (λ kv, kv.1 ∈ mutable_fields) volume.

Definition is_ApiCreate (ev : event) : bool :=
  match ev with ApiCreate _ _ _ _ _ => true | _ => false end.

(** ** The round trip through the XML codec *)

(** The attributes the create-request decoder recognises. *)
Definition recognized_attributes : list string :=
  ["display_name"; "display_description"; "size"; "volume_type";
   "availability_zone"].

(** The fields the volume template encodes as attributes. *)
Definition volume_attrib : list string :=
  ["id"; "status"; "size"; "availability_zone"; "created_at";
   "display_name"; "display_description"; "volume_type"; "snapshot_id"].

(** The string an attribute of the encoded view holds: the string form of
    the view's field, or the empty string when the view has no such field. *)
Definition encoded_attribute {env : Env} (view : dict) (attr : string)
    : string :=
  default "" (str <$> view !! attr).

(** * Sample data *)

(** Collaborators for the examples. The parser knows one document and
    rejects any other text; what it answers outside the examples' two texts
    is of no consequence. *)
Definition sample_env : Env := {|
  str_container := λ _, "<container>";
  is_uuid_like := λ s, Nat.eqb (String.length s) 36;
  parseString := λ s,
    if String.eqb s "<volume size='1'/>"
    then Some (document (Node "volume" [("size", "1")] []))
    else None;
  get_volume_type_by_name := λ _ name,
    if eq_str name "gold"
    then Ok (VDict {["id" := VInt 1; "name" := VStr "gold"]})
    else Raise VolumeTypeNotFound;
  extract_metadata := λ _, VDict ∅;
  render_metadata := λ _, [];
  limited := λ volumes _, volumes;
  XMLNS_VOLUME_V2 := "http://docs.openstack.org/volume/api/v2";
  XMLNS_ATOM := "http://www.w3.org/2005/Atom"
|}.

Definition user_context : RequestContext := {| is_admin := false |}.
Definition admin_context : RequestContext := {| is_admin := true |}.

(** The record of the repository's API tests ([fake_volume_get]). *)
Definition fake_volume : dict :=
  <["project_id" := VStr "fake"]>
    (<["migration_status" := VNone]>
       (<["_name_id" := VStr "fake2"]>
          {[ "id" := VStr "fake"; "host" := VStr "host001";
             "status" := VStr "available"; "size" := VInt 5;
             "availability_zone" := VStr "somewhere";
             "created_at" := VStr "2013-01-01 00:00:00";
             "attach_status" := VNone;
             "display_name" := VStr "anothervolume";
             "display_description" := VStr "Just another volume!";
             "volume_type_id" := VNone; "snapshot_id" := VNone ]})).

Definition pair_a1 : val := VDict {["key" := VStr "a"; "value" := VStr "1"]}.
Definition mapping_a1 : dict := {["a" := VStr "1"]}.

Definition volume_with_pairs : dict :=
  <["volume_metadata" := VList [pair_a1]]> fake_volume.
Definition volume_with_mapping : dict :=
  <["metadata" := VDict mapping_a1]> fake_volume.
Definition volume_with_empty_pairs : dict :=
  <["volume_metadata" := VList []]> volume_with_mapping.

Definition volume_with_text_metadata : dict :=
  <["metadata" := VStr "a=1"]> fake_volume.

Definition volume_gold : dict :=
  <["volume_type" := VDict {["name" := VStr "gold"]}]>
    (<["volume_type_id" := VStr "7"]> fake_volume).
Definition volume_42 : dict :=
  <["volume_type_id" := VStr "42"]> fake_volume.

Definition volume_attached_no_mountpoint : dict :=
  <["instance_uuid" := VStr "server-1"]>
    (<["attach_status" := VStr "attached"]> fake_volume).
Definition volume_attached : dict :=
  <["mountpoint" := VStr "/dev/vdb"]> volume_attached_no_mountpoint.

Definition view_of_strings : dict :=
  {["display_name" := VStr "vol-1"; "size" := VStr "5"]}.
Definition view_size_5 : dict :=
  {["size" := VInt 5; "display_description" := VStr ""]}.

Definition snapshot_s1 : val :=
  VDict {["id" := VStr "s1"; "volume_size" := VInt 10]}.

(** A volume service that knows the fake volume and the snapshot [s1]. *)
Definition sample_api : VolumeAPI := {|
  api_get := λ _ id,
    if eq_str id "fake" then Ok fake_volume else Raise NotFound;
  api_get_all := λ _ _, Ok [fake_volume];
  api_get_snapshot := λ _ id,
    if eq_str id "s1" then Ok snapshot_s1 else Raise NotFound;
  api_create := λ _ size name description _,
    Ok (<["size" := size]>
          (<["display_name" := name]>
             (<["display_description" := description]> fake_volume)));
  api_update := λ _ _ _, Ok ();
  api_delete := λ _ _, Ok ()
|}.

Definition plain_controller : VolumeController.t := {|
  VolumeController.volume_api := sample_api;
  VolumeController.ext_mgr_is_loaded := λ _, false
|}.

Definition image_controller : VolumeController.t := {|
  VolumeController.volume_api := sample_api;
  VolumeController.ext_mgr_is_loaded := λ name,
    String.eqb name "os-image-create"
|}.

Definition user_request : Request :=
  {| cinder_context := user_context; GET := ∅ |}.

Definition body_of (volume : dict) : val :=
  VDict {["volume" := VDict volume]}.

(** * Further vocabulary *)

(** The fields of a rendered view, the optional image id apart. *)
Definition view_fields : gset string :=
  list_to_set ["id"; "status"; "size"; "availability_zone"; "created_at";
               "attachments"; "display_name"; "display_description";
               "volume_type"; "snapshot_id"; "metadata"].

(** The fields a view takes over from the record as they are. *)
Definition copied_fields : list string :=
  ["id"; "status"; "size"; "availability_zone"; "created_at";
   "display_name"; "display_description"; "snapshot_id"].

(** The key of a pair record of the metadata table. *)
Definition pair_key (item : val) : option string :=
  match item with
  | VDict p =>
      match p !! "key" with
      | Some (VStr k) => Some k
      | _ => None
      end
  | _ => None
  end.

(** The search options [index] and [detail] hand to the volume service for
    a query: all of them for a privileged caller, the display name and the
    status for any other. *)
Definition search_options_of (context : RequestContext) (query : dict)
    : dict :=
  if is_admin context then query
  else filter (λ kv, kv.1 ∈ ["display_name"; "status"]) query.

(** The text holds a slash. *)
Fixpoint has_slash (s : string) : bool :=
  match s with
  | EmptyString => false
  | String c s' => Ascii.eqb c "/"%char || has_slash s'
  end.

(** The keyword arguments [create] may hand to the volume service. *)
Definition create_keywords : list string :=
  ["volume_type"; "metadata"; "snapshot"; "image_id"; "availability_zone"].

(** * Further sample data *)

(** A record whose pair list names the key [a] twice. *)
Definition volume_with_repeated_key : dict :=
  <["volume_metadata" :=
      VList [pair_a1;
             VDict {["key" := VStr "a"; "value" := VStr "2"]};
             VDict {["key" := VStr "b"; "value" := VStr "3"]}]]>
    fake_volume.

(** A volume service whose volume is gone by the time it is to be deleted. *)
Definition vanishing_api : VolumeAPI := {|
  api_get := api_get sample_api;
  api_get_all := api_get_all sample_api;
  api_get_snapshot := api_get_snapshot sample_api;
  api_create := api_create sample_api;
  api_update := api_update sample_api;
  api_delete := λ _ _, Raise NotFound
|}.

Definition vanishing_controller : VolumeController.t := {|
  VolumeController.volume_api := vanishing_api;
  VolumeController.ext_mgr_is_loaded := λ _, false
|}.

(** The image service's identifiers of the examples. *)
Definition image_uuid_1 : string := "c905cedb-7281-47e4-8a62-f26bc5fc4c77".
Definition image_href_1 : string :=
  "http://glance.example/v1/images/" ++ image_uuid_1.

(** A create request for a volume of 1 GB from the image of the examples. *)
Definition volume_from_image : dict :=
  {["size" := VInt 1; "imageRef" := VStr image_href_1]}.

(** Collaborators whose parser knows the document [<snapshot/>]. *)
Definition snapshot_env : Env := {|
  str_container := str_container (Env := sample_env);
  is_uuid_like := is_uuid_like (Env := sample_env);
  parseString := λ s,
    if String.eqb s "<snapshot/>"
    then Some (document (Node "snapshot" [] []))
    else None;
  get_volume_type_by_name := get_volume_type_by_name (Env := sample_env);
  extract_metadata := extract_metadata (Env := sample_env);
  render_metadata := render_metadata (Env := sample_env);
  limited := limited (Env := sample_env);
  XMLNS_VOLUME_V2 := XMLNS_VOLUME_V2 (Env := sample_env);
  XMLNS_ATOM := XMLNS_ATOM (Env := sample_env)
|}.

(** * Properties *)

(** ** The monad *)

Lemma outcome_bind {A B} (m : M A) (k : A → M B) :
  outcome (m ≫= k)
  = match outcome m with Ok a => outcome (k a) | Raise e => Raise e end.
Proof.
  destruct m as [tr [a|e]]; [|reflexivity].
  unfold mbind, M_bind, bind, outcome; simpl. by destruct (k a).
Qed.

Lemma trace_bind {A B} (m : M A) (k : A → M B) :
  trace (m ≫= k)
  = (trace m
     ++ match outcome m with Ok a => trace (k a) | Raise _ => [] end)%list.
Proof.
  destruct m as [tr [a|e]]; unfold mbind, M_bind, bind, trace, outcome; simpl.
  - by destruct (k a).
  - by rewrite app_nil_r.
Qed.

Lemma bind_Ok_inv {A B} (m : M A) (k : A → M B) (b : B) :
  outcome (m ≫= k) = Ok b → ∃ a, outcome m = Ok a ∧ outcome (k a) = Ok b.
Proof.
  rewrite outcome_bind. destruct (outcome m) as [a|e]; [eauto | discriminate].
Qed.

Lemma bind_returns {A B} (m : M A) (k : A → M B) :
  (∃ a, outcome m = Ok a) →
  (∀ a, outcome m = Ok a → ∃ b, outcome (k a) = Ok b) →
  ∃ b, outcome (m ≫= k) = Ok b.
Proof.
  intros [a Ha] Hk. rewrite outcome_bind, Ha. by apply Hk.
Qed.

Lemma getitem_Ok (d : dict) (k : string) (v : val) :
  outcome (getitem d k) = Ok v ↔ d !! k = Some v.
Proof.
  unfold getitem. destruct (d !! k); simpl; split; intros [=]; by subst.
Qed.

Lemma mret_Ok_inv {A} (a b : A) : outcome (mret a : M A) = Ok b → a = b.
Proof. by intros [=]. Qed.

Lemma ret_bind {A B} (a : A) (k : A → M B) : (mret a ≫= k) = k a.
Proof.
  unfold mret, M_ret, ret, mbind, M_bind, bind. by destruct (k a).
Qed.

Lemma outcome_ret {A} (a : A) : outcome (mret a : M A) = Ok a.
Proof. reflexivity. Qed.

Lemma outcome_emit ev : outcome (emit ev) = Ok ().
Proof. reflexivity. Qed.

Lemma outcome_call_bind {A B} ev (a : A) (k : A → M B) :
  outcome (call ev (Ok a) ≫= k) = outcome (k a).
Proof. by rewrite outcome_bind. Qed.

Lemma trace_getitem (d : dict) k : trace (getitem d k) = [].
Proof. unfold getitem. by destruct (d !! k). Qed.

Lemma trace_subscript (v : val) k : trace (subscript v k) = [].
Proof. destruct v; try done. apply trace_getitem. Qed.

Lemma trace_get (v : val) k : trace (get v k) = [].
Proof. by destruct v. Qed.

Lemma trace_contains (v : val) k : trace (contains v k) = [].
Proof. by destruct v. Qed.

Lemma trace_try_except {A} (m : M A) (h : exn → option (M A)) ev :
  (∀ e k, h e = Some k → trace k = []) →
  ev ∈ trace (try_except m h) → ev ∈ trace m.
Proof.
  intros Hh. destruct m as [tr [a|e]]; [done|]. unfold try_except.
  destruct (h e) as [[tr' r]|] eqn:He; [|done].
  apply Hh in He. simpl in He. subst tr'. unfold trace. simpl.
  by rewrite app_nil_r.
Qed.

Lemma trace_try_except_incl {A} (m : M A) (h : exn → option (M A)) ev :
  ev ∈ trace m → ev ∈ trace (try_except m h).
Proof.
  destruct m as [tr [a|e]]; [done|]. unfold try_except, trace. simpl.
  intros Hev. destruct (h e) as [[tr' r]|]; [|done].
  simpl. apply elem_of_app. by left.
Qed.

(** Peel the binds of a computation known to return. *)
Ltac invert_binds Hd :=
  repeat (apply bind_Ok_inv in Hd as (? & ? & Hd); cbv beta zeta in Hd);
  repeat match goal with
         | Hg : outcome (getitem _ _) = Ok _ |- _ => apply getitem_Ok in Hg
         end.

(** Read a block of the translator that is known to return. *)
Ltac invert_block Hd :=
  repeat match type of Hd with
         | outcome (if ?c then _ else _) = Ok _ => destruct c eqn:?
         | outcome (_ ≫= _) = Ok _ =>
             apply bind_Ok_inv in Hd as (? & ? & Hd); cbv beta zeta in Hd
         | outcome (mret _) = Ok _ => apply mret_Ok_inv in Hd
         end.

(** Run a [getitem] whose answer is among the hypotheses. *)
Ltac step_getitem :=
  apply bind_returns;
  [eexists; apply getitem_Ok; eassumption
  |let a := fresh "a" in
   let Ha := fresh "Ha" in
   intros a Ha; apply getitem_Ok in Ha;
   match type of Ha with
   | ?d !! ?k = Some _ =>
       match goal with
       | Hk : d !! k = Some _ |- _ => rewrite Hk in Ha; injection Ha as <-
       end
   end; cbv beta zeta].

(** ** Values and well-formed records *)

Lemma has_field_Some vol k : has_field vol k = true → ∃ v, vol !! k = Some v.
Proof. unfold has_field. intros [v Hv]%bool_decide_eq_true. eauto. Qed.

Lemma dict_get_Some (d : dict) k v : d !! k = Some v → dict_get d k = v.
Proof. unfold dict_get. by intros ->. Qed.

Lemma eq_str_true (v : val) (s : string) : eq_str v s = true ↔ v = VStr s.
Proof.
  destruct v; simpl; try (split; [discriminate|by intros [=]]).
  rewrite String.eqb_eq. split; [by intros ->|by intros [=]].
Qed.

Lemma dict_get_truthy (d : dict) (k : string) :
  truthy (dict_get d k) = true → d !! k = Some (dict_get d k).
Proof. unfold dict_get. by destruct (d !! k). Qed.

Lemma truthy_dict_empty (m : dict) : truthy (VDict m) = false → m = ∅.
Proof.
  simpl. intros Hs%negb_false_iff%Nat.eqb_eq. by apply map_size_empty_iff.
Qed.

Lemma truthy_dict_with_key (b : dict) k v :
  b !! k = Some v → truthy (VDict b) = true.
Proof.
  intros Hk. simpl. apply negb_true_iff, Nat.eqb_neq.
  intros Hs%map_size_empty_iff. by rewrite Hs, lookup_empty in Hk.
Qed.

Lemma is_None_true (v : val) : is_None v = true ↔ v = VNone.
Proof. by destruct v. Qed.

Lemma is_None_false (v : val) : is_None v = false ↔ v ≠ VNone.
Proof. by destruct v. Qed.

Section TranslatorFacts.
Context `{env : !Env}.

(** The loop over the pair records agrees with [mapping_of_pairs]. *)
Lemma dict_of_items_pairs items acc :
  forallb is_pair_record items = true →
  outcome (dict_of_items items acc)
  = Ok (foldl (λ acc item,
           match item with
           | VDict p =>
               match p !! "key", p !! "value" with
               | Some (VStr k), Some v => <[k := v]> acc
               | _, _ => acc
               end
           | _ => acc
           end) acc items).
Proof.
  revert acc. induction items as [|item items IH]; intros acc Hp; [done|].
  simpl in Hp. apply andb_true_iff in Hp as [Hi Hp].
  destruct item as [| | | | |p]; try discriminate. simpl in Hi |- *.
  unfold getitem.
  destruct (p !! "key") as [[| | |k| |]|]; try discriminate.
  destruct (p !! "value") as [v|]; try discriminate.
  specialize (IH (<[k:=v]> acc) Hp). simpl.
  by destruct (dict_of_items items (<[k:=v]> acc)).
Qed.

Lemma attachment_view_returns ctx vol :
  is_Some (vol !! "id") → is_Some (vol !! "instance_uuid") →
  ∃ d, outcome (_translate_attachment_detail_view ctx vol) = Ok d.
Proof.
  intros [id Hid] [srv Hsrv].
  unfold _translate_attachment_detail_view, _translate_attachment_summary_view.
  unfold getitem. rewrite Hid, Hsrv. rewrite !outcome_bind. simpl.
  unfold has_mountpoint, dict_get.
  destruct (vol !! "mountpoint") as [mp|]; simpl; [|eauto].
  destruct (truthy mp); simpl; eauto.
Qed.

Lemma summary_view_returns ctx vol image_id :
  well_formed vol = true →
  ∃ d, outcome (_translate_volume_summary_view ctx vol image_id) = Ok d.
Proof.
  unfold well_formed. rewrite !andb_true_iff. intros [[[Hreq Hatt] Hty] Hmd].
  simpl in Hreq. rewrite !andb_true_iff in Hreq.
  destruct Hreq as (H1 & H2 & H3 & H4 & H5 & H6 & H7 & H8 & H9 & H10 & _).
  apply has_field_Some in H1 as [v1 H1], H2 as [v2 H2], H3 as [v3 H3],
    H4 as [v4 H4], H5 as [v5 H5], H6 as [v6 H6], H7 as [v7 H7],
    H8 as [v8 H8], H9 as [v9 H9], H10 as [v10 H10].
  rewrite (dict_get_Some _ _ _ H6) in Hatt.
  rewrite (dict_get_Some _ _ _ H9) in Hty.
  unfold _translate_volume_summary_view.
  repeat step_getitem.
  apply bind_returns.
  { destruct (eq_str v6 "attached"); [|by eexists].
    apply has_field_Some in Hatt.
    apply bind_returns; [apply attachment_view_returns; eauto|].
    intros; by eexists. }
  intros d1 _. cbv beta. repeat step_getitem.
  apply bind_returns.
  { destruct (truthy v9 && truthy (dict_get vol "volume_type")); [|by eexists].
    unfold dict_get in Hty.
    destruct (vol !! "volume_type") as [[| | | | |t]|] eqn:Hvt;
      simpl in Hty; try discriminate.
    apply bool_decide_eq_true in Hty as [name Hname].
    unfold getitem. rewrite Hvt. rewrite outcome_bind. simpl.
    unfold getitem. rewrite Hname. by eexists. }
  intros d2 _. cbv beta. step_getitem.
  apply bind_returns; [by eexists|]. intros _ _.
  destruct (truthy (dict_get vol "volume_metadata")).
  - destruct (dict_get vol "volume_metadata") as [| | | |items|];
      try discriminate.
    rewrite outcome_bind. simpl. rewrite dict_of_items_pairs by done.
    by eexists.
  - destruct (truthy (dict_get vol "metadata")
              && isinstance_dict (dict_get vol "metadata")) eqn:Hm;
      [|by eexists].
    apply andb_true_iff in Hm as [Hm _]. unfold dict_get in Hm.
    unfold getitem. destruct (vol !! "metadata"); [|discriminate].
    by eexists.
Qed.

Lemma summary_view_metadata ctx vol image_id d :
  outcome (_translate_volume_summary_view ctx vol image_id) = Ok d →
  if truthy (dict_get vol "volume_metadata") then
    ∃ md, outcome (dict_of_metadata (dict_get vol "volume_metadata")) = Ok md
          ∧ d !! "metadata" = Some (VDict md)
  else if truthy (dict_get vol "metadata")
          && isinstance_dict (dict_get vol "metadata") then
    d !! "metadata" = vol !! "metadata"
  else d !! "metadata" = Some (VDict ∅).
Proof.
  unfold _translate_volume_summary_view. intros Hd. invert_binds Hd.
  invert_block Hd; subst d.
  - eexists. split; [eassumption|]. apply lookup_insert_eq.
  - rewrite lookup_insert_eq. symmetry. by apply getitem_Ok.
  - apply lookup_insert_eq.
Qed.

Lemma summary_view_volume_type ctx vol image_id d :
  outcome (_translate_volume_summary_view ctx vol image_id) = Ok d →
  ∃ ref, vol !! "volume_type_id" = Some ref
    ∧ d !! "volume_type"
      = if truthy ref && truthy (dict_get vol "volume_type")
        then embedded_type_name vol
        else Some (VStr (str ref)).
Proof.
  unfold _translate_volume_summary_view. intros Hd. invert_binds Hd.
  match goal with
  | Hr : vol !! "volume_type_id" = Some ?r |- _ => exists r; split; [done|]
  end.
  match goal with
  | Hb : outcome (if truthy _ && _ then _ else _) = Ok ?d2 |- _ =>
      assert (d !! "volume_type" = d2 !! "volume_type") as ->;
      [clear Hb|invert_block Hb; subst d2]
  end.
  { invert_block Hd; subst d; destruct (truthy image_id);
      by simplify_map_eq. }
  - rewrite lookup_insert_eq. unfold embedded_type_name.
    match goal with
    | Hg : outcome (getitem vol "volume_type") = Ok _ |- _ =>
        apply getitem_Ok in Hg; rewrite Hg
    end.
    match goal with
    | Hs : outcome (subscript ?t "name") = Ok _ |- _ =>
        destruct t; try discriminate; simpl in Hs; apply getitem_Ok in Hs
    end. done.
  - apply lookup_insert_eq.
Qed.

Lemma attachment_view_inv ctx vol att :
  outcome (_translate_attachment_detail_view ctx vol) = Ok att →
  ∃ id, vol !! "id" = Some id ∧ att !! "id" = Some id
    ∧ att !! "device"
      = if has_mountpoint vol then vol !! "mountpoint" else None.
Proof.
  unfold _translate_attachment_detail_view,
    _translate_attachment_summary_view, has_mountpoint.
  intros Hd. apply bind_Ok_inv in Hd as (att' & Hs & Hd).
  apply mret_Ok_inv in Hd. subst att'.
  invert_binds Hs. apply mret_Ok_inv in Hs. subst att.
  match goal with
  | Hr : vol !! "id" = Some ?r |- _ => exists r; split; [done|]
  end.
  match goal with
  | Hb : outcome (if _ then _ else _) = Ok _ |- _ => invert_block Hb; subst
  end.
  - match goal with
    | Hg : outcome (getitem vol "mountpoint") = Ok _ |- _ =>
        apply getitem_Ok in Hg; rewrite Hg
    end.
    by simplify_map_eq.
  - by simplify_map_eq.
Qed.

Lemma summary_view_attachments ctx vol image_id d :
  outcome (_translate_volume_summary_view ctx vol image_id) = Ok d →
  ∃ id st, vol !! "id" = Some id ∧ vol !! "attach_status" = Some st
    ∧ if eq_str st "attached"
      then ∃ att, d !! "attachments" = Some (VList [VDict att])
             ∧ att !! "id" = Some id
             ∧ att !! "device"
               = if has_mountpoint vol then vol !! "mountpoint" else None
      else d !! "attachments" = Some (VList []).
Proof.
  unfold _translate_volume_summary_view. intros Hd. invert_binds Hd.
  match goal with
  | Hi : vol !! "id" = Some ?i, Hs : vol !! "attach_status" = Some ?s |- _ =>
      exists i, s; split; [done|split; [done|]]
  end.
  match goal with
  | Ha : outcome (if eq_str _ _ then _ else _) = Ok ?d1,
    Hb : outcome (if truthy _ && _ then _ else _) = Ok ?d2 |- _ =>
      assert (d !! "attachments" = d1 !! "attachments") as Hsame;
      [clear Ha|invert_block Ha; subst d1]
  end.
  { match goal with
    | Hb : outcome (if truthy _ && _ then _ else _) = Ok _ |- _ =>
        invert_block Hb; subst
    end;
    invert_block Hd; subst d; destruct (truthy image_id);
      by simplify_map_eq. }
  - match goal with
    | Ht : outcome (_translate_attachment_detail_view _ _) = Ok ?a |- _ =>
        exists a; apply attachment_view_inv in Ht as (id' & Hid' & ? & ?)
    end.
    rewrite Hsame. unfold append_at. rewrite lookup_insert_eq.
    rewrite lookup_insert_eq. simplify_eq. done.
  - rewrite Hsame. apply lookup_insert_eq.
Qed.

End TranslatorFacts.

(** ** The view translator *)

(** C1: for every volume record the metadata of the summary view is resolved
    in three steps: pair-list metadata gives the mapping built from the
    pairs, else direct-mapping metadata is taken as it is, else the mapping
    is empty. *)
Theorem metadata_resolution {env : Env} ctx vol image_id :
  well_formed vol = true →
  ∃ d, outcome (_translate_volume_summary_view ctx vol image_id) = Ok d
       ∧ d !! "metadata" = Some (VDict (resolved_metadata vol)).
Proof.
  intros Hwf. destruct (summary_view_returns ctx vol image_id Hwf) as [d Hd].
  exists d. split; [done|].
  pose proof (summary_view_metadata _ _ _ _ Hd) as Hmd.
  unfold well_formed in Hwf. apply andb_true_iff in Hwf as [_ Hpairs].
  unfold resolved_metadata, pair_list, direct_mapping.
  destruct (truthy (dict_get vol "volume_metadata")) eqn:Htr.
  - rewrite (dict_get_truthy _ _ Htr).
    destruct (dict_get vol "volume_metadata") as [| | | |items|];
      try discriminate.
    destruct Hmd as (md & Hmd & ->). simpl in Hmd.
    rewrite dict_of_items_pairs in Hmd by done. injection Hmd as <-.
    by destruct items.
  - assert (match vol !! "volume_metadata" with
            | Some (VList (item :: items)) => Some (item :: items)
            | _ => None
            end = None) as ->.
    { unfold dict_get in Htr.
      by destruct (vol !! "volume_metadata") as [[| | | |[|??]|]|]. }
    unfold dict_get in Hmd.
    destruct (vol !! "metadata") as [[| | | | |m]|]; simpl in Hmd;
      rewrite ?andb_false_r, ?andb_true_r in Hmd; try done.
    destruct (negb (Nat.eqb (size m) 0)) eqn:Hm; [done|].
    by rewrite (truthy_dict_empty m Hm).
Qed.

(** The three records of the specification's example: pair-list metadata
    and direct-mapping metadata render the same mapping, a record with
    neither renders the empty mapping. *)
Lemma metadata_resolution_witness :
  ∃ d1 d2 d3,
    outcome (_translate_volume_summary_view
               (H := sample_env) user_context volume_with_pairs VNone) = Ok d1
    ∧ outcome (_translate_volume_summary_view
                 (H := sample_env) user_context volume_with_mapping VNone)
      = Ok d2
    ∧ outcome (_translate_volume_summary_view
                 (H := sample_env) user_context fake_volume VNone) = Ok d3
    ∧ d1 !! "metadata" = Some (VDict mapping_a1)
    ∧ d2 !! "metadata" = Some (VDict mapping_a1)
    ∧ d3 !! "metadata" = Some (VDict ∅).
Proof.
  destruct (metadata_resolution (env := sample_env) user_context
              volume_with_pairs VNone ltac:(vm_compute; reflexivity)) as (d1 & H1 & M1).
  destruct (metadata_resolution (env := sample_env) user_context
              volume_with_mapping VNone ltac:(vm_compute; reflexivity)) as (d2 & H2 & M2).
  destruct (metadata_resolution (env := sample_env) user_context
              fake_volume VNone ltac:(vm_compute; reflexivity)) as (d3 & H3 & M3).
  exists d1, d2, d3. repeat split; assumption.
Defined.

(** C2: the view's volume_type is the embedded type object's name when the
    record carries a non-empty type reference and an embedded type object;
    otherwise it is the string form of the bare reference, which for a null
    reference is the string form of "no reference". *)
Theorem volume_type_resolution {env : Env} ctx vol image_id :
  well_formed vol = true →
  ∃ d ref,
    outcome (_translate_volume_summary_view ctx vol image_id) = Ok d
    ∧ vol !! "volume_type_id" = Some ref
    ∧ (truthy ref = true → truthy (dict_get vol "volume_type") = true →
       ∃ name, embedded_type_name vol = Some name
               ∧ d !! "volume_type" = Some name)
    ∧ (truthy ref && truthy (dict_get vol "volume_type") = false →
       d !! "volume_type" = Some (VStr (str ref)))
    ∧ (ref = VNone → d !! "volume_type" = Some (VStr "None")).
Proof.
  intros Hwf. destruct (summary_view_returns ctx vol image_id Hwf) as [d Hd].
  destruct (summary_view_volume_type _ _ _ _ Hd) as (ref & Href & Hvt).
  exists d, ref. repeat split; try done.
  - intros Hr He. rewrite Hr, He in Hvt. simpl in Hvt.
    unfold well_formed in Hwf. rewrite !andb_true_iff in Hwf.
    destruct Hwf as [[_ Hty] _].
    rewrite (dict_get_Some _ _ _ Href), Hr, He in Hty. simpl in Hty.
    unfold embedded_type_name in *. rewrite (dict_get_truthy _ _ He) in *.
    destruct (dict_get vol "volume_type") as [| | | | |t]; try discriminate.
    apply bool_decide_eq_true in Hty as [name Hname].
    exists name. by rewrite Hvt.
  - intros Hc. by rewrite Hc in Hvt.
  - intros ->. by rewrite Hvt.
Qed.

(** The specification's examples: an embedded type object named "gold"
    gives "gold"; a bare reference "42" gives "42"; the record of the API
    tests, whose reference is null, gives "None". *)
Lemma volume_type_resolution_witness :
  ∃ d1 d2 d3,
    outcome (_translate_volume_summary_view
               (H := sample_env) user_context volume_gold VNone) = Ok d1
    ∧ outcome (_translate_volume_summary_view
                 (H := sample_env) user_context volume_42 VNone) = Ok d2
    ∧ outcome (_translate_volume_summary_view
                 (H := sample_env) user_context fake_volume VNone) = Ok d3
    ∧ d1 !! "volume_type" = Some (VStr "gold")
    ∧ d2 !! "volume_type" = Some (VStr "42")
    ∧ d3 !! "volume_type" = Some (VStr "None").
Proof.
  destruct (volume_type_resolution (env := sample_env) user_context
              volume_gold VNone ltac:(vm_compute; reflexivity))
    as (d1 & r1 & H1 & R1 & T1 & _ & _).
  destruct (volume_type_resolution (env := sample_env) user_context
              volume_42 VNone ltac:(vm_compute; reflexivity))
    as (d2 & r2 & H2 & R2 & _ & T2 & _).
  destruct (volume_type_resolution (env := sample_env) user_context
              fake_volume VNone ltac:(vm_compute; reflexivity))
    as (d3 & r3 & H3 & R3 & _ & _ & T3).
  vm_compute in R1; injection R1 as <-. vm_compute in R2; injection R2 as <-. vm_compute in R3; injection R3 as <-.
  destruct (T1 eq_refl eq_refl) as (name & N1 & V1). vm_compute in N1; injection N1 as <-.
  exists d1, d2, d3. repeat split; try assumption.
  - exact (T2 eq_refl).
  - exact (T3 eq_refl).
Defined.

(** C8: a record that is not attached renders an empty attachments list; an
    attached record renders exactly one attachment view whose id is the
    volume's id, with a device field exactly when the record has a mount
    point; the device is the mount point and never an empty string. *)
Theorem attachments_of_view {env : Env} ctx vol image_id :
  well_formed vol = true →
  ∃ d id st,
    outcome (_translate_volume_summary_view ctx vol image_id) = Ok d
    ∧ vol !! "id" = Some id
    ∧ vol !! "attach_status" = Some st
    ∧ (st ≠ VStr "attached" → d !! "attachments" = Some (VList []))
    ∧ (st = VStr "attached" →
       ∃ att, d !! "attachments" = Some (VList [VDict att])
         ∧ att !! "id" = Some id
         ∧ (is_Some (att !! "device") ↔ has_mountpoint vol = true)
         ∧ (has_mountpoint vol = true → att !! "device" = vol !! "mountpoint")
         ∧ att !! "device" ≠ Some (VStr "")).
Proof.
  intros Hwf. destruct (summary_view_returns ctx vol image_id Hwf) as [d Hd].
  destruct (summary_view_attachments _ _ _ _ Hd)
    as (id & st & Hid & Hst & Hatt).
  exists d, id, st. repeat split; try done.
  - intros Hne. destruct (eq_str st "attached") eqn:Hs; [|done].
    by apply eq_str_true in Hs.
  - intros ->. simpl in Hatt. destruct Hatt as (att & Ha & Hi & Hdev).
    exists att. repeat split; try done.
    + intros Hsome. destruct (has_mountpoint vol); [done|].
      rewrite Hdev in Hsome. by destruct Hsome.
    + intros Hmp. rewrite Hmp in Hdev. rewrite Hdev.
      unfold has_mountpoint in Hmp. apply dict_get_truthy in Hmp. by eexists.
    + intros Hmp. by rewrite Hmp in Hdev.
    + unfold has_mountpoint in Hdev.
      destruct (truthy (dict_get vol "mountpoint")) eqn:Hmp;
        rewrite Hdev; [|done].
      rewrite (dict_get_truthy _ _ Hmp). intros [= Heq].
      by rewrite Heq in Hmp.
Qed.

(** An attached record with a mount point, the same record without it, and
    the record of the API tests, which is not attached. *)
Lemma attachments_of_view_witness :
  ∃ d1 d2 d3 att1 att2,
    outcome (_translate_volume_summary_view
               (H := sample_env) user_context volume_attached VNone) = Ok d1
    ∧ outcome (_translate_volume_summary_view (H := sample_env) user_context
                 volume_attached_no_mountpoint VNone) = Ok d2
    ∧ outcome (_translate_volume_summary_view
                 (H := sample_env) user_context fake_volume VNone) = Ok d3
    ∧ d1 !! "attachments" = Some (VList [VDict att1])
    ∧ att1 !! "id" = Some (VStr "fake")
    ∧ att1 !! "device" = Some (VStr "/dev/vdb")
    ∧ d2 !! "attachments" = Some (VList [VDict att2])
    ∧ ¬ is_Some (att2 !! "device")
    ∧ d3 !! "attachments" = Some (VList []).
Proof.
  destruct (attachments_of_view (env := sample_env) user_context
              volume_attached VNone ltac:(vm_compute; reflexivity))
    as (d1 & i1 & s1 & H1 & I1 & S1 & _ & A1).
  destruct (attachments_of_view (env := sample_env) user_context
              volume_attached_no_mountpoint VNone ltac:(vm_compute; reflexivity))
    as (d2 & i2 & s2 & H2 & I2 & S2 & _ & A2).
  destruct (attachments_of_view (env := sample_env) user_context
              fake_volume VNone ltac:(vm_compute; reflexivity))
    as (d3 & i3 & s3 & H3 & I3 & S3 & A3 & _).
  vm_compute in I1; injection I1 as <-. vm_compute in S1; injection S1 as <-. vm_compute in S2; injection S2 as <-.
  vm_compute in S3; injection S3 as <-.
  destruct (A1 eq_refl) as (att1 & L1 & AI1 & _ & D1 & _).
  destruct (A2 eq_refl) as (att2 & L2 & _ & D2 & _ & _).
  exists d1, d2, d3, att1, att2. repeat split; try assumption.
  - exact (D1 eq_refl).
  - intros Hs. apply D2 in Hs. discriminate Hs.
  - apply A3. discriminate.
Defined.

(** C10: the metadata dispatch goes by truth value, not by presence. When
    the pair-list field is present but empty the pair-list branch is not
    taken: a direct mapping is rendered if the record has one, the empty
    mapping otherwise. A direct-mapping field that is not a mapping is
    ignored and the empty mapping is rendered. *)
Theorem metadata_dispatch_by_truth {env : Env} ctx vol image_id :
  well_formed vol = true →
  ∃ d,
    outcome (_translate_volume_summary_view ctx vol image_id) = Ok d
    ∧ (vol !! "volume_metadata" = Some (VList []) →
       ∀ m, vol !! "metadata" = Some (VDict m) →
            d !! "metadata" = Some (VDict m))
    ∧ (vol !! "volume_metadata" = Some (VList []) →
       direct_mapping vol = None → d !! "metadata" = Some (VDict ∅))
    ∧ (truthy (dict_get vol "volume_metadata") = false →
       isinstance_dict (dict_get vol "metadata") = false →
       d !! "metadata" = Some (VDict ∅)).
Proof.
  intros Hwf. destruct (summary_view_returns ctx vol image_id Hwf) as [d Hd].
  exists d. split; [done|].
  pose proof (summary_view_metadata _ _ _ _ Hd) as Hmd.
  repeat split.
  - intros Hpl m Hm. rewrite (dict_get_Some _ _ _ Hpl) in Hmd. simpl in Hmd.
    rewrite (dict_get_Some _ _ _ Hm) in Hmd. simpl in Hmd.
    rewrite andb_true_r in Hmd.
    destruct (negb (Nat.eqb (size m) 0)) eqn:Hs; [by rewrite Hmd, Hm|].
    by rewrite (truthy_dict_empty m Hs).
  - intros Hpl Hdm. rewrite (dict_get_Some _ _ _ Hpl) in Hmd. simpl in Hmd.
    unfold direct_mapping in Hdm. unfold dict_get in Hmd.
    destruct (vol !! "metadata") as [[| | | | |m]|]; simpl in Hmd;
      rewrite ?andb_false_r in Hmd; done.
  - intros Hf Hnd. rewrite Hf, Hnd, andb_false_r in Hmd. done.
Qed.

(** A record with an empty pair list beside a direct mapping renders the
    direct mapping; with a direct-mapping field that holds a string it
    renders the empty mapping. *)
Lemma metadata_dispatch_by_truth_witness :
  ∃ d1 d2,
    outcome (_translate_volume_summary_view (H := sample_env) user_context
               volume_with_empty_pairs VNone) = Ok d1
    ∧ outcome (_translate_volume_summary_view (H := sample_env) user_context
                 volume_with_text_metadata VNone) = Ok d2
    ∧ d1 !! "metadata" = Some (VDict mapping_a1)
    ∧ d2 !! "metadata" = Some (VDict ∅).
Proof.
  destruct (metadata_dispatch_by_truth (env := sample_env) user_context
              volume_with_empty_pairs VNone ltac:(vm_compute; reflexivity)) as (d1 & H1 & M1 & _).
  destruct (metadata_dispatch_by_truth (env := sample_env) user_context
              volume_with_text_metadata VNone ltac:(vm_compute; reflexivity))
    as (d2 & H2 & _ & _ & M2).
  exists d1, d2. repeat split; try assumption.
  - exact (M1 eq_refl mapping_a1 eq_refl).
  - exact (M2 eq_refl eq_refl).
Defined.

(** ** The option filter *)

Lemma foldl_delete_lookup (ks : list string) (m : dict) (k : string) :
  foldl (λ so opt, delete opt so) m ks !! k
  = if decide (k ∈ ks) then None else m !! k.
Proof.
  revert m. induction ks as [|k' ks IH]; intros m.
  - destruct (decide (k ∈ [])) as [Hk|]; [by apply elem_of_nil in Hk|done].
  - change (foldl (λ so opt, delete opt so) (delete k' m) ks !! k
            = if decide (k ∈ k' :: ks) then None else m !! k).
    rewrite IH. destruct (decide (k ∈ ks)) as [Hin|Hin].
    + rewrite decide_True by (apply elem_of_cons; auto). done.
    + destruct (decide (k = k')) as [->|Hne].
      * rewrite decide_True by (apply elem_of_cons; auto).
        apply lookup_delete_eq.
      * rewrite decide_False by (rewrite elem_of_cons; intros [?|?]; done).
        by apply lookup_delete_ne.
Qed.

Lemma elem_of_keys (m : dict) (k : string) :
  k ∈ (map_to_list m).*1 ↔ is_Some (m !! k).
Proof.
  rewrite list_elem_of_fmap. split.
  - intros ([k' v] & -> & Hin). apply elem_of_map_to_list in Hin. by eexists.
  - intros [v Hv]. exists (k, v). split; [done|].
    by apply elem_of_map_to_list.
Qed.

(** C5: for a privileged context the filter leaves every option untouched;
    for any other context exactly the options whose key is in the allowed
    set remain, with their values unchanged. *)
Theorem option_filtering ctx (search_options : dict) (allowed : list string) :
  ∃ filtered,
    outcome (remove_invalid_options ctx search_options allowed) = Ok filtered
    ∧ (is_admin ctx = true → filtered = search_options)
    ∧ (is_admin ctx = false →
       ∀ k, filtered !! k
            = if decide (k ∈ allowed) then search_options !! k else None).
Proof.
  unfold remove_invalid_options. destruct (is_admin ctx).
  - exists search_options. by repeat split.
  - eexists. rewrite outcome_bind. simpl. split; [reflexivity|].
    split; [done|]. intros _ k. rewrite foldl_delete_lookup.
    destruct (decide (k ∈ allowed)) as [Hin|Hout].
    + rewrite decide_False; [done|].
      rewrite list_elem_of_filter. by intros [? _].
    + destruct (search_options !! k) as [v|] eqn:Hk.
      * rewrite decide_True; [done|].
        rewrite list_elem_of_filter, elem_of_keys. by rewrite Hk.
      * by case_decide.
Qed.

(** The specification's example: for an unprivileged caller the options
    [{display_name: "x", foo: "y"}] filtered against the controller's allowed
    set leave [{display_name: "x"}]; for a privileged caller both stay. *)
Lemma option_filtering_witness :
  outcome (remove_invalid_options user_context
             {["display_name" := VStr "x"; "foo" := VStr "y"]}
             (VolumeController._get_volume_search_options plain_controller))
  = Ok {["display_name" := VStr "x"]}
  ∧ outcome (remove_invalid_options admin_context
               {["display_name" := VStr "x"; "foo" := VStr "y"]}
               (VolumeController._get_volume_search_options plain_controller))
    = Ok {["display_name" := VStr "x"; "foo" := VStr "y"]}.
Proof.
  destruct (option_filtering user_context
              {["display_name" := VStr "x"; "foo" := VStr "y"]}
              (VolumeController._get_volume_search_options plain_controller))
    as (f1 & H1 & _ & U1).
  destruct (option_filtering admin_context
              {["display_name" := VStr "x"; "foo" := VStr "y"]}
              (VolumeController._get_volume_search_options plain_controller))
    as (f2 & H2 & A2 & _).
  split.
  - rewrite H1. f_equal. apply map_eq. intros k. rewrite (U1 eq_refl k).
    case_decide as Hk.
    + apply elem_of_cons in Hk as [->|Hk]; [by vm_compute|].
      apply list_elem_of_singleton in Hk as ->. by vm_compute.
    + rewrite lookup_singleton_ne; [done|].
      intros <-. apply Hk. apply elem_of_cons. by left.
  - rewrite H2. f_equal. exact (A2 eq_refl).
Defined.

(** ** The controller *)

Lemma handler_silent_NotFound {A} e (k : M A) :
  VolumeController.NotFound_to_HTTPNotFound e = Some k → trace k = [].
Proof.
  unfold VolumeController.NotFound_to_HTTPNotFound.
  destruct (isinstance_NotFound e); [|done]. by intros [= <-].
Qed.

(** Case analysis on the origin of an event of a trace. *)
Ltac trace_step Hev :=
  match type of Hev with
  | _ ∈ [] => by apply elem_of_nil in Hev
  | _ ∈ trace (_ ≫= _) =>
      rewrite trace_bind in Hev; apply elem_of_app in Hev as [Hev|Hev]
  | _ ∈ match outcome ?m with Ok _ => _ | Raise _ => [] end =>
      destruct (outcome m) eqn:?;
      [cbv beta zeta in Hev|by apply elem_of_nil in Hev]
  | _ ∈ trace (let '(_, _) := ?p in _) => destruct p
  | _ ∈ trace (if ?c then _ else _) => destruct c eqn:?
  | _ ∈ trace (getitem _ _) => rewrite trace_getitem in Hev
  | _ ∈ trace (subscript _ _) => rewrite trace_subscript in Hev
  | _ ∈ trace (get _ _) => rewrite trace_get in Hev
  | _ ∈ trace (contains _ _) => rewrite trace_contains in Hev
  | _ ∈ trace (mret _) => by apply elem_of_nil in Hev
  | _ ∈ trace (raise _) => by apply elem_of_nil in Hev
  | _ ∈ trace (emit _) => apply list_elem_of_singleton in Hev
  | _ ∈ trace (call _ _) => apply list_elem_of_singleton in Hev
  | _ ∈ trace (try_except _ VolumeController.NotFound_to_HTTPNotFound) =>
      apply (trace_try_except _ _ _ handler_silent_NotFound) in Hev
  | _ ∈ trace (try_except _ _) =>
      apply trace_try_except in Hev;
      [|by (intros [] ? [= <-])]
  end.

Section ControllerFacts.
Context `{env : !Env}.

Lemma trace_dict_of_items items acc : trace (dict_of_items items acc) = [].
Proof.
  revert acc. induction items as [|item items IH]; intros acc; [done|].
  simpl. rewrite !trace_bind, trace_subscript. simpl.
  destruct (outcome (subscript item "key")) as [k|]; [|done].
  rewrite trace_bind, trace_subscript. simpl.
  destruct (outcome (subscript item "value")); [|done].
  by destruct k.
Qed.

Lemma trace_attachment_view ctx vol :
  trace (_translate_attachment_detail_view ctx vol) = [].
Proof.
  apply elem_of_nil_inv. intros ev Hev.
  unfold _translate_attachment_detail_view,
    _translate_attachment_summary_view in Hev.
  repeat trace_step Hev.
Qed.

(** The translator logs its one audit entry and nothing else. *)
Lemma trace_summary_view ctx vol image_id ev :
  ev ∈ trace (_translate_volume_summary_view ctx vol image_id) →
  ev = LogAudit "vol=%s" (VDict vol) ctx.
Proof.
  unfold _translate_volume_summary_view. intros Hev.
  repeat first
    [ trace_step Hev
    | match type of Hev with
      | _ ∈ trace (_translate_attachment_detail_view _ _) =>
          rewrite trace_attachment_view in Hev
      | _ ∈ trace (dict_of_metadata ?v) =>
          destruct v; simpl in Hev; rewrite ?trace_dict_of_items in Hev
      end ]; done.
Qed.

Lemma trace_detail_view ctx vol image_id ev :
  ev ∈ trace (_translate_volume_detail_view ctx vol image_id) →
  ev = LogAudit "vol=%s" (VDict vol) ctx.
Proof.
  unfold _translate_volume_detail_view. intros Hev.
  repeat trace_step Hev. by apply trace_summary_view in Hev.
Qed.

Import VolumeController.

Lemma trace_image_uuid_from_href self image_href :
  trace (_image_uuid_from_href self image_href) = [].
Proof.
  unfold _image_uuid_from_href.
  destruct image_href; simpl; try done.
  by destruct (is_uuid_like _).
Qed.

Lemma is_valid_body_dict (b volume : dict) name :
  b !! name = Some (VDict volume) → is_valid_body (VDict b) name = true.
Proof. unfold is_valid_body. by intros ->. Qed.

Lemma subscript_dict (b : dict) k v :
  b !! k = Some v → subscript (VDict b) k = mret v.
Proof. unfold subscript, getitem. by intros ->. Qed.

Lemma get_dict (d : dict) k : get (VDict d) k = mret (dict_get d k).
Proof. reflexivity. Qed.

(** What is known when [create] reaches the volume service. *)
Lemma create_call_inv self req b volume c size name desc kwargs :
  b !! "volume" = Some (VDict volume) →
  ApiCreate c size name desc kwargs ∈ trace (create self req (VDict b)) →
  ∃ snapshot,
    (if negb (is_None (dict_get volume "snapshot_id"))
     then api_get_snapshot (volume_api self) (cinder_context req)
            (dict_get volume "snapshot_id") = Ok snapshot
     else snapshot = VNone)
    ∧ outcome (if is_None (dict_get volume "size")
                  && negb (is_None snapshot)
               then subscript snapshot "volume_size"
               else mret (dict_get volume "size")) = Ok size
    ∧ (ext_mgr_is_loaded self "os-image-create" = true →
       truthy (dict_get volume "snapshot_id")
       && truthy (dict_get volume "imageRef") = false)
    ∧ c = cinder_context req
    ∧ name = dict_get volume "display_name"
    ∧ desc = dict_get volume "display_description".
Proof.
  intros Hb Hev. unfold create in Hev.
  rewrite (is_valid_body_dict _ _ _ Hb), (subscript_dict _ _ _ Hb) in Hev.
  simpl negb in Hev. cbv iota in Hev. rewrite ret_bind in Hev.
  repeat first
    [ trace_step Hev
    | match type of Hev with
      | _ ∈ trace (_translate_volume_detail_view _ _ _) =>
          apply trace_detail_view in Hev
      | _ ∈ trace (_image_uuid_from_href _ _) =>
          rewrite trace_image_uuid_from_href in Hev
      end ]; try done.
  repeat match goal with
         | Hg : outcome (get (VDict _) _) = Ok _ |- _ =>
             rewrite get_dict in Hg; apply mret_Ok_inv in Hg; subst
         end.
  injection Hev as -> -> -> -> ->.
  match goal with
  | Hs : outcome (getitem _ "snapshot") = Ok ?s |- _ =>
      exists s; apply getitem_Ok in Hs
  end.
  repeat split; try done.
  - match goal with
    | Hb : outcome (if negb (is_None _) then _ else _) = Ok _ |- _ =>
        invert_block Hb; subst
    end.
    + rewrite lookup_insert_eq in *. by simplify_eq.
    + rewrite lookup_insert_eq in *. by simplify_eq.
  - intros Hext.
    match goal with
    | Hb : outcome (if ext_mgr_is_loaded _ _ then _ else _) = Ok _ |- _ =>
        rewrite Hext, get_dict, ret_bind in Hb;
        apply bind_Ok_inv in Hb as (? & Hb & _)
    end.
    by destruct (truthy (dict_get volume "snapshot_id")
                 && truthy (dict_get volume "imageRef")).
Qed.

End ControllerFacts.

(** C7: the size handed to the volume service. When the body gives no size
    and a snapshot was resolved, it is the snapshot's recorded volume size;
    when the body gives a size, that size is handed over unchanged. The
    service is reached in both situations when no volume type is named and
    the image extension is not loaded. *)
Theorem create_size_defaulting {env : Env} self req b volume :
  b !! "volume" = Some (VDict volume) →
  (∀ c size name desc kwargs,
     ApiCreate c size name desc kwargs
     ∈ trace (VolumeController.create self req (VDict b)) →
     (dict_get volume "size" ≠ VNone → size = dict_get volume "size")
     ∧ (dict_get volume "size" = VNone →
        dict_get volume "snapshot_id" ≠ VNone →
        ∀ snap recorded,
          api_get_snapshot (VolumeController.volume_api self)
            (cinder_context req) (dict_get volume "snapshot_id")
          = Ok (VDict snap) →
          snap !! "volume_size" = Some recorded →
          size = recorded))
  ∧ (truthy (dict_get volume "volume_type") = false →
     VolumeController.ext_mgr_is_loaded self "os-image-create" = false →
     dict_get volume "size" ≠ VNone →
     dict_get volume "snapshot_id" = VNone →
     ∃ kwargs,
       ApiCreate (cinder_context req) (dict_get volume "size")
         (dict_get volume "display_name")
         (dict_get volume "display_description") kwargs
       ∈ trace (VolumeController.create self req (VDict b)))
  ∧ (truthy (dict_get volume "volume_type") = false →
     VolumeController.ext_mgr_is_loaded self "os-image-create" = false →
     dict_get volume "size" = VNone →
     dict_get volume "snapshot_id" ≠ VNone →
     ∀ snap recorded,
       api_get_snapshot (VolumeController.volume_api self)
         (cinder_context req) (dict_get volume "snapshot_id")
       = Ok (VDict snap) →
       snap !! "volume_size" = Some recorded →
       ∃ kwargs,
         ApiCreate (cinder_context req) recorded
           (dict_get volume "display_name")
           (dict_get volume "display_description") kwargs
         ∈ trace (VolumeController.create self req (VDict b))).
Proof.
  intros Hb. split; [|split].
  - intros c size name desc kwargs Hev.
    destruct (create_call_inv _ _ _ _ _ _ _ _ _ Hb Hev)
      as (snapshot & Hsnap & Hsize & _).
    split.
    + intros Hsz%is_None_false. rewrite Hsz in Hsize. simpl in Hsize.
      by injection Hsize as <-.
    + intros Hsz Hsid%is_None_false snap recorded Hget Hrec.
      rewrite Hsid in Hsnap. simpl in Hsnap. rewrite Hget in Hsnap.
      injection Hsnap as <-. rewrite Hsz in Hsize. simpl in Hsize.
      unfold getitem in Hsize. rewrite Hrec in Hsize.
      by injection Hsize as <-.
  - intros Hty Hext Hsz%is_None_false Hsid. eexists.
    unfold VolumeController.create.
    rewrite (is_valid_body_dict _ _ _ Hb), (subscript_dict _ _ _ Hb).
    simpl negb. cbv iota. rewrite ret_bind, !get_dict.
    rewrite ret_bind, Hty, !ret_bind, Hsid. simpl is_None. simpl negb.
    cbv iota. rewrite !ret_bind. unfold getitem.
    rewrite lookup_insert_eq, ret_bind, Hsz. simpl andb. cbv iota.
    rewrite ret_bind, Hext.
    rewrite trace_bind. apply elem_of_app. right. simpl outcome. cbv iota.
    rewrite !ret_bind.
    rewrite trace_bind. apply elem_of_app. left.
    by apply list_elem_of_singleton.
  - intros Hty Hext Hsz Hsid%is_None_false snap recorded Hget Hrec. eexists.
    unfold VolumeController.create.
    rewrite (is_valid_body_dict _ _ _ Hb), (subscript_dict _ _ _ Hb).
    simpl negb. cbv iota. rewrite ret_bind, !get_dict.
    rewrite ret_bind, Hty, !ret_bind, Hsid. simpl negb. cbv iota.
    rewrite Hget.
    rewrite trace_bind. apply elem_of_app. right.
    rewrite outcome_call_bind. simpl outcome. cbv iota.
    rewrite !ret_bind. unfold getitem at 1.
    rewrite lookup_insert_eq, ret_bind, Hsz. simpl andb. cbv iota.
    unfold subscript, getitem. rewrite Hrec, ret_bind.
    rewrite Hext.
    rewrite trace_bind. apply elem_of_app. right. simpl outcome. cbv iota.
    rewrite !ret_bind.
    rewrite trace_bind. apply elem_of_app. left.
    by apply list_elem_of_singleton.
Qed.

(** The two examples of the specification: a body with size 5 reaches the
    service with size 5; a body that names snapshot [s1], whose recorded
    size is 10, reaches it with size 10. *)
Lemma create_size_defaulting_witness :
  (∃ kwargs,
     ApiCreate user_context (VInt 5) VNone VNone kwargs
     ∈ trace (VolumeController.create (H := sample_env) plain_controller
                user_request (body_of {["size" := VInt 5]})))
  ∧ (∃ kwargs,
       ApiCreate user_context (VInt 10) VNone VNone kwargs
       ∈ trace (VolumeController.create (H := sample_env) plain_controller
                  user_request (body_of {["snapshot_id" := VStr "s1"]}))).
Proof.
  split.
  - destruct (create_size_defaulting (env := sample_env) plain_controller
                user_request {["volume" := VDict {["size" := VInt 5]}]}
                {["size" := VInt 5]} ltac:(by vm_compute)) as (_ & R1 & _).
    apply R1; by vm_compute.
  - destruct (create_size_defaulting (env := sample_env) plain_controller
                user_request
                {["volume" := VDict {["snapshot_id" := VStr "s1"]}]}
                {["snapshot_id" := VStr "s1"]} ltac:(by vm_compute))
      as (_ & _ & R2).
    apply (R2 ltac:(by vm_compute) ltac:(by vm_compute) ltac:(by vm_compute)
              ltac:(by vm_compute)
              {["id" := VStr "s1"; "volume_size" := VInt 10]} (VInt 10));
      by vm_compute.
Defined.

(** C4, as the code has it: a create request whose body gives both a
    snapshot id and an image reference, with the image extension loaded,
    never reaches the volume service and ends in an error; when the steps
    that run before the check succeed (the lookup of a named volume type,
    the lookup of the snapshot, the defaulting of the size), the error is
    the 400 "Snapshot and image cannot be specified together." *)
Theorem create_snapshot_and_image {env : Env} self req b volume :
  b !! "volume" = Some (VDict volume) →
  truthy (dict_get volume "snapshot_id") = true →
  truthy (dict_get volume "imageRef") = true →
  VolumeController.ext_mgr_is_loaded self "os-image-create" = true →
  (∀ ev, ev ∈ trace (VolumeController.create self req (VDict b)) →
         is_ApiCreate ev = false)
  ∧ (∃ e, outcome (VolumeController.create self req (VDict b)) = Raise e)
  ∧ ((truthy (dict_get volume "volume_type") = true →
      ∃ vt, get_volume_type_by_name (cinder_context req)
              (dict_get volume "volume_type") = Ok vt) →
     ∀ snapshot,
       api_get_snapshot (VolumeController.volume_api self)
         (cinder_context req) (dict_get volume "snapshot_id")
       = Ok snapshot →
       (dict_get volume "size" = VNone → snapshot ≠ VNone →
        ∃ size, outcome (subscript snapshot "volume_size") = Ok size) →
       outcome (VolumeController.create self req (VDict b))
       = Raise (HTTPBadRequest
                  "Snapshot and image cannot be specified together.")).
Proof.
  intros Hb Hsid Himg Hext.
  assert (is_None (dict_get volume "snapshot_id") = false) as Hsome
    by (by destruct (dict_get volume "snapshot_id")).
  split; [|split].
  - intros ev Hev. destruct ev; try done.
    destruct (create_call_inv _ _ _ _ _ _ _ _ _ Hb Hev)
      as (_ & _ & _ & Hno & _).
    specialize (Hno Hext). by rewrite Hsid, Himg in Hno.
  - unfold VolumeController.create.
    rewrite (is_valid_body_dict _ _ _ Hb), (subscript_dict _ _ _ Hb).
    simpl negb. cbv iota.
    repeat (rewrite ?get_dict, ?ret_bind;
            match goal with
            | |- ∃ e, outcome (?m ≫= ?k) = Raise e =>
                let Hm := fresh "Hm" in
                rewrite (outcome_bind m k);
                destruct (outcome m) eqn:Hm;
                [cbv beta zeta;
                 try (exfalso;
                      rewrite Hext, ?get_dict, ?ret_bind, Hsid, Himg in Hm;
                      discriminate)
                |by eauto]
            end).
  - intros Hvt snapshot Hget Hsize. unfold VolumeController.create.
    rewrite (is_valid_body_dict _ _ _ Hb), (subscript_dict _ _ _ Hb).
    simpl negb. cbv iota. rewrite ret_bind, !get_dict, ret_bind.
    rewrite outcome_bind.
    assert (∃ kw0, outcome
      (if truthy (dict_get volume "volume_type")
       then
        try_except
          (call (GetVolumeTypeByName (cinder_context req)
                   (dict_get volume "volume_type"))
             (get_volume_type_by_name (cinder_context req)
                (dict_get volume "volume_type")))
          (λ e : exn,
             match e with
             | VolumeTypeNotFound =>
                 Some (raise (HTTPNotFound (Some "Volume type not found.")))
             | _ => None
             end)
        ≫= λ vt : val, mret (<["volume_type":=vt]> (∅ : dict))
       else mret ∅) = Ok kw0) as [kw0 ->].
    { destruct (truthy (dict_get volume "volume_type")); [|by eexists].
      destruct (Hvt eq_refl) as [vt ->]. by eexists. }
    rewrite !ret_bind, Hsome. simpl negb. cbv iota.
    rewrite Hget, outcome_bind, outcome_call_bind, outcome_ret.
    cbv beta iota. rewrite ?ret_bind. unfold getitem at 1.
    rewrite lookup_insert_eq, ret_bind, outcome_bind.
    assert (∃ size, outcome
      (if is_None (dict_get volume "size") && negb (is_None snapshot)
       then subscript snapshot "volume_size"
       else mret (dict_get volume "size")) = Ok size) as [size ->].
    { destruct (is_None (dict_get volume "size")) eqn:Hsz; [|by eexists].
      destruct (is_None snapshot) eqn:Hsn; [by eexists|].
      apply Hsize; [by apply is_None_true|by apply is_None_false]. }
    rewrite outcome_bind, outcome_emit. cbv beta iota.
    rewrite Hext, ?ret_bind, Hsid, Himg. reflexivity.
Qed.

(** The conflict is only seen after the snapshot has been looked up: with a
    snapshot the service does not know, the service's own error leaves
    [create], and no 400 is raised. *)
Lemma create_snapshot_and_image_counterexample :
  outcome (VolumeController.create (H := sample_env) image_controller
             user_request
             (body_of {["snapshot_id" := VStr "missing";
                        "imageRef" := VStr "img"]}))
  = Raise NotFound
  ∧ ¬ (∃ explanation,
         outcome (VolumeController.create (H := sample_env) image_controller
                    user_request
                    (body_of {["snapshot_id" := VStr "missing";
                               "imageRef" := VStr "img"]}))
         = Raise (HTTPBadRequest explanation)).
Proof.
  assert (outcome (VolumeController.create (H := sample_env) image_controller
             user_request
             (body_of {["snapshot_id" := VStr "missing";
                        "imageRef" := VStr "img"]})) = Raise NotFound) as E
    by (by vm_compute).
  split; [exact E|]. intros [explanation Hx]. rewrite E in Hx. discriminate.
Qed.

(** Likewise a named volume type that is not known ends the request with
    the 404 of the type lookup. *)
Example create_unknown_type_precedes_conflict :
  outcome (VolumeController.create (H := sample_env) image_controller
             user_request
             (body_of {["volume_type" := VStr "silver";
                        "snapshot_id" := VStr "s1";
                        "imageRef" := VStr "img"]}))
  = Raise (HTTPNotFound (Some "Volume type not found.")).
Proof. by vm_compute. Qed.

(** With the snapshot [s1], which the service knows, the request ends in
    the 400 and the service's create is not among the events. *)
Lemma create_snapshot_and_image_witness :
  (∀ ev, ev ∈ trace (VolumeController.create (H := sample_env)
                       image_controller user_request
                       (body_of {["snapshot_id" := VStr "s1";
                                  "imageRef" := VStr "img"]})) →
         is_ApiCreate ev = false)
  ∧ outcome (VolumeController.create (H := sample_env) image_controller
               user_request
               (body_of {["snapshot_id" := VStr "s1";
                          "imageRef" := VStr "img"]}))
    = Raise (HTTPBadRequest
               "Snapshot and image cannot be specified together.").
Proof.
  destruct (create_snapshot_and_image (env := sample_env) image_controller
              user_request
              {["volume" := VDict {["snapshot_id" := VStr "s1";
                                    "imageRef" := VStr "img"]}]}
              {["snapshot_id" := VStr "s1"; "imageRef" := VStr "img"]}
              ltac:(by vm_compute) ltac:(by vm_compute)
              ltac:(by vm_compute) ltac:(by vm_compute))
    as (Hno & _ & Hbad).
  split; [exact Hno|].
  apply (Hbad ltac:(by vm_compute) snapshot_s1 ltac:(by vm_compute)).
  intros _ _. exists (VInt 10). by vm_compute.
Defined.

Lemma mutable_part_lookup (volume : dict) (k : string) :
  mutable_part volume !! k
  = if decide (k ∈ mutable_fields) then volume !! k else None.
Proof.
  unfold mutable_part. destruct (decide (k ∈ mutable_fields)) as [Hin|Hout].
  - destruct (volume !! k) as [v|] eqn:Hk.
    + by apply map_lookup_filter_Some_2.
    + apply map_lookup_filter_None_2. by left.
  - apply map_lookup_filter_None_2. right. by intros v _ Hin.
Qed.

(** The loop over the valid update keys. *)
Lemma update_loop (volume : dict) :
  for_each mutable_fields (∅ : dict)
    (λ update_dict key,
       present ← contains (VDict volume) key;
       if (present : bool) then
         v ← subscript (VDict volume) key;
         mret (<[key := v]> update_dict)
       else mret update_dict)
  = mret (mutable_part volume).
Proof.
  unfold mutable_fields, for_each, contains, subscript, getitem.
  destruct (volume !! "display_name") as [v1|] eqn:H1,
    (volume !! "display_description") as [v2|] eqn:H2,
    (volume !! "metadata") as [v3|] eqn:H3;
    repeat (rewrite ?ret_bind;
            first [rewrite bool_decide_eq_true_2 by (by eexists)
                  |rewrite bool_decide_eq_false_2 by (by intros [? ?])]);
    rewrite ?ret_bind; f_equal; f_equal; apply map_eq; intros k;
    rewrite mutable_part_lookup; unfold mutable_fields;
    (case_decide as Hk; rewrite !elem_of_cons, elem_of_nil in Hk;
     [destruct Hk as [->|[->|[->|[]]]]; by simplify_map_eq|]);
    assert (k ≠ "display_name") by (intros ->; apply Hk; auto);
    assert (k ≠ "display_description") by (intros ->; apply Hk; auto);
    assert (k ≠ "metadata") by (intros ->; apply Hk; auto);
    by simplify_map_eq.
Qed.

Lemma contains_dict_key (b : dict) k v :
  b !! k = Some v → contains (VDict b) k = mret true.
Proof.
  intros Hk. unfold contains. by rewrite bool_decide_eq_true_2 by (by eexists).
Qed.

(** [update] after its checks of the body. *)
Lemma update_unfold {env : Env} self req id b volume :
  b !! "volume" = Some (VDict volume) →
  VolumeController.update self req id (VDict b)
  = (volume' ← try_except
       (volume' ← call (ApiGet (cinder_context req) id)
                    (api_get (VolumeController.volume_api self)
                             (cinder_context req) id);
        call (ApiUpdate (cinder_context req) volume' (mutable_part volume))
             (api_update (VolumeController.volume_api self)
                         (cinder_context req) volume' (mutable_part volume));;
        mret volume')
       VolumeController.NotFound_to_HTTPNotFound;
     view ← _translate_volume_detail_view (cinder_context req)
              (mutable_part volume ∪ volume') VNone;
     mret (VDict {["volume" := VDict view]})).
Proof.
  intros Hb. unfold VolumeController.update.
  rewrite (truthy_dict_with_key _ _ _ Hb), (contains_dict_key _ _ _ Hb).
  simpl negb. cbv iota. rewrite ret_bind. simpl negb. cbv iota.
  rewrite (subscript_dict _ _ _ Hb), ret_bind.
  change ["display_name"; "display_description"; "metadata"]
    with mutable_fields.
  by rewrite update_loop, ret_bind.
Qed.


Lemma mutable_part_idemp (volume : dict) :
  mutable_part (mutable_part volume) = mutable_part volume.
Proof.
  apply map_eq. intros k. rewrite !mutable_part_lookup.
  by case_decide.
Qed.

(** C6: of the fields an update request submits, the volume service sees
    the display name, the display description and the metadata, as far as
    they are present, and nothing else; any other field is ignored, so the
    request behaves as if it had not been submitted. *)
Theorem update_passes_mutable_fields {env : Env} self req id b volume :
  b !! "volume" = Some (VDict volume) →
  (∀ c v u,
     ApiUpdate c v u ∈ trace (VolumeController.update self req id (VDict b)) →
     u = mutable_part volume)
  ∧ (∀ v,
       api_get (VolumeController.volume_api self) (cinder_context req) id
       = Ok v →
       ApiUpdate (cinder_context req) v (mutable_part volume)
       ∈ trace (VolumeController.update self req id (VDict b)))
  ∧ (∀ k, mutable_part volume !! k
          = if decide (k ∈ mutable_fields) then volume !! k else None)
  ∧ VolumeController.update self req id (VDict b)
    = VolumeController.update self req id
        (VDict (<["volume" := VDict (mutable_part volume)]> b)).
Proof.
  intros Hb. repeat split.
  - intros c v u Hev. rewrite (update_unfold _ _ _ _ _ Hb) in Hev.
    repeat first
      [ trace_step Hev
      | match type of Hev with
        | _ ∈ trace (_translate_volume_detail_view _ _ _) =>
            apply trace_detail_view in Hev
        end ]; try done.
    by injection Hev as -> -> ->.
  - intros v Hget. rewrite (update_unfold _ _ _ _ _ Hb).
    rewrite trace_bind. apply elem_of_app. left.
    apply trace_try_except_incl. rewrite Hget.
    rewrite trace_bind. apply elem_of_app. right. simpl outcome. cbv iota.
    rewrite trace_bind. apply elem_of_app. left.
    by apply list_elem_of_singleton.
  - apply mutable_part_lookup.
  - rewrite (update_unfold _ _ _ _ _ Hb).
    rewrite (update_unfold _ _ _ _ (mutable_part volume));
      [|apply lookup_insert_eq].
    by rewrite mutable_part_idemp.
Qed.

(** The specification's example: of [{display_name: "new", bogus_field:
    "z"}] the service receives [{display_name: "new"}]. *)
Lemma update_passes_mutable_fields_witness :
  ApiUpdate user_context fake_volume {["display_name" := VStr "new"]}
  ∈ trace (VolumeController.update (H := sample_env) plain_controller
             user_request (VStr "fake")
             (body_of {["display_name" := VStr "new";
                        "bogus_field" := VStr "z"]})).
Proof.
  destruct (update_passes_mutable_fields (env := sample_env)
              plain_controller user_request (VStr "fake")
              {["volume" := VDict {["display_name" := VStr "new";
                                    "bogus_field" := VStr "z"]}]}
              {["display_name" := VStr "new"; "bogus_field" := VStr "z"]}
              ltac:(by vm_compute)) as (_ & Hreach & _).
  assert (api_get (VolumeController.volume_api plain_controller)
            (cinder_context user_request) (VStr "fake") = Ok fake_volume)
    as Hget by reflexivity.
  apply Hreach in Hget.
  assert (mutable_part {["display_name" := VStr "new";
                         "bogus_field" := VStr "z"]}
          = {["display_name" := VStr "new"]}) as Hpart by (by vm_compute).
  rewrite Hpart in Hget. exact Hget.
Defined.

(** ** The XML codec *)

(** C3: what the create-request decoder does with text the parser rejects:
    the parser's [ExpatError] leaves [default] as it is, and that is not one
    of the client-input errors. *)
Theorem malformed_xml_raises_ExpatError {env : Env} (text : string) :
  parseString text = None →
  outcome (CreateDeserializer.default text) = Raise ExpatError
  ∧ is_client_input_error ExpatError = false.
Proof.
  intros Hparse. unfold CreateDeserializer.default. by rewrite Hparse.
Qed.

(** An unterminated tag. *)
Lemma malformed_xml_raises_ExpatError_witness :
  outcome (CreateDeserializer.default (H := sample_env) "<volume")
  = Raise ExpatError
  ∧ is_client_input_error ExpatError = false.
Proof.
  apply (malformed_xml_raises_ExpatError (env := sample_env) "<volume").
  reflexivity.
Defined.

(** The attribute a rendered element holds for a key. *)
Lemma find_render_attrib {env : Env} (attrib : list string) (d : dict) attr :
  List.find (λ kv : string * string, String.eqb kv.1 attr)
            (xmlutil.render_attrib attrib (VDict d))
  = if decide (attr ∈ attrib) then (λ v, (attr, str v)) <$> d !! attr
    else None.
Proof.
  unfold xmlutil.render_attrib.
  induction attrib as [|key attrib IH].
  { destruct (decide (attr ∈ [])) as [Hin|]; [by apply elem_of_nil in Hin|done]. }
  assert (attr ≠ key → (attr ∈ key :: attrib ↔ attr ∈ attrib)) as Hiff.
  { intros Hne. rewrite elem_of_cons. split; [by intros [?|?]|auto]. }
  cbn [omap list_omap]. destruct (d !! key) as [v|] eqn:Hv; cbn [fmap option_fmap option_map].
  - cbn [List.find fst]. destruct (String.eqb key attr) eqn:Heq.
    + apply String.eqb_eq in Heq as ->.
      rewrite decide_True by (apply elem_of_cons; auto). by rewrite Hv.
    + apply String.eqb_neq in Heq. rewrite IH.
      destruct (decide (attr ∈ attrib)) as [Hin|Hout].
      * by rewrite decide_True by (by apply Hiff).
      * by rewrite decide_False by (by rewrite Hiff).
  - rewrite IH. destruct (decide (attr = key)) as [->|Hne].
    + rewrite Hv.
      rewrite (decide_True (P := key ∈ key :: attrib))
        by (apply elem_of_cons; auto).
      by case_decide.
    + destruct (decide (attr ∈ attrib)) as [Hin|Hout].
      * by rewrite decide_True by (by apply Hiff).
      * by rewrite decide_False by (by rewrite Hiff).
Qed.

Lemma extract_loop (volume_node : option node) (f : string → string)
    (attrs : list string) (acc : dict) :
  (∀ attr, attr ∈ attrs → getAttribute volume_node attr = mret (f attr)) →
  for_each attrs acc (λ volume attr,
    a ← getAttribute volume_node attr;
    if truthy (VStr a)
    then a ← getAttribute volume_node attr;
         mret (<[attr := VStr a]> volume)
    else mret volume)
  = mret (foldl (λ acc attr,
                   if truthy (VStr (f attr))
                   then <[attr := VStr (f attr)]> acc else acc)
                acc attrs).
Proof.
  revert acc. induction attrs as [|attr attrs IH]; intros acc Hf; [done|].
  cbn [for_each]. rewrite (Hf attr) by (apply elem_of_cons; auto).
  rewrite ret_bind. cbn [foldl].
  match goal with
  | |- context [(if ?c then _ else mret acc) ≫= _] => destruct c
  end.
  - rewrite !ret_bind. apply IH. intros a Ha. apply Hf.
    apply elem_of_cons. auto.
  - rewrite !ret_bind. apply IH. intros a Ha. apply Hf.
    apply elem_of_cons. auto.
Qed.

Lemma extract_loop_lookup (f : string → string) (attrs : list string)
    (acc : dict) (k : string) :
  foldl (λ acc attr,
           if truthy (VStr (f attr))
           then <[attr := VStr (f attr)]> acc else acc) acc attrs !! k
  = if decide (k ∈ attrs)
    then (if truthy (VStr (f k)) then Some (VStr (f k)) else acc !! k)
    else acc !! k.
Proof.
  revert acc. induction attrs as [|attr attrs IH]; intros acc.
  - destruct (decide (k ∈ [])) as [Hin|]; [by apply elem_of_nil in Hin|done].
  - cbn [foldl]. rewrite IH. destruct (decide (k = attr)) as [->|Hne].
    + rewrite (decide_True (P := attr ∈ attr :: attrs))
        by (apply elem_of_cons; auto).
      destruct (truthy (VStr (f attr))) eqn:Ht.
      * destruct (decide (attr ∈ attrs)); [done|]. apply lookup_insert_eq.
      * by destruct (decide (attr ∈ attrs)).
    + assert (k ∈ attr :: attrs ↔ k ∈ attrs) as Hiff.
      { rewrite elem_of_cons. split; [by intros [?|?]|auto]. }
      assert ((if truthy (VStr (f attr))
               then <[attr := VStr (f attr)]> acc else acc) !! k = acc !! k)
        as Hk.
      { destruct (truthy (VStr (f attr))); [|done].
        by rewrite lookup_insert_ne. }
      rewrite Hk. destruct (decide (k ∈ attrs)) as [Hin|Hout].
      * by rewrite decide_True by (by apply Hiff).
      * by rewrite decide_False by (by rewrite Hiff).
Qed.

Lemma serialize_volume {env : Env} (view : dict) :
  ∃ children,
    xmlutil.serialize VolumeTemplate (VDict {["volume" := VDict view]})
    = Some (Node "volume"
              (xmlutil.render_nsmap volume_nsmap
               ++ xmlutil.render_attrib volume_attrib (VDict view))%list
              children).
Proof.
  unfold xmlutil.serialize, VolumeTemplate. simpl xmlutil.root.
  simpl xmlutil.nsmap.
  unfold make_volume, make_attachment. simpl xmlutil.set. simpl xmlutil.append.
  cbn [xmlutil.render]. unfold xmlutil.select at 1.
  rewrite lookup_singleton_eq. cbn [map]. by eexists.
Qed.

Lemma getAttribute_encoded {env : Env} (view : dict) children attr :
  attr ∈ recognized_attributes →
  getAttribute
    (Some (Node "volume"
             (xmlutil.render_nsmap volume_nsmap
              ++ xmlutil.render_attrib volume_attrib (VDict view))%list
             children)) attr
  = mret (encoded_attribute view attr).
Proof.
  intros Hattr. unfold getAttribute, encoded_attribute. f_equal.
  cbn [attributes]. unfold volume_nsmap. cbn [xmlutil.render_nsmap map].
  unfold recognized_attributes in Hattr.
  rewrite !elem_of_cons, elem_of_nil in Hattr.
  destruct Hattr as [->|[->|[->|[->|[->|[]]]]]];
    cbn [app List.find fst String.eqb Ascii.eqb Bool.eqb andb];
    rewrite find_render_attrib;
    (rewrite decide_True
       by (unfold volume_attrib; rewrite !elem_of_cons; tauto));
    by destruct (view !! _).
Qed.

(** What [_extract_volume] makes of the tree of an encoded view. *)
Lemma extract_encoded_volume {env : Env} (view : dict) children :
  ∃ volume,
    outcome (CommonDeserializer._extract_volume
               (document
                  (Node "volume"
                     (xmlutil.render_nsmap volume_nsmap
                      ++ xmlutil.render_attrib volume_attrib (VDict view))%list
                     children))) = Ok volume
    ∧ ∀ attr, attr ∈ recognized_attributes →
        volume !! attr
        = if truthy (VStr (encoded_attribute view attr))
          then Some (VStr (encoded_attribute view attr)) else None.
Proof.
  unfold CommonDeserializer._extract_volume, document.
  unfold CommonDeserializer.find_first_child_named.
  cbn [childNodes List.find nodeName String.eqb Ascii.eqb Bool.eqb andb].
  rewrite ret_bind.
  change ["display_name"; "display_description"; "size"; "volume_type";
          "availability_zone"] with recognized_attributes.
  rewrite (extract_loop _ (encoded_attribute view))
    by (intros attr Hattr; by apply getAttribute_encoded).
  rewrite !ret_bind.
  eexists. split; [reflexivity|]. intros attr Hattr.
  assert (attr ≠ "metadata") as Hne.
  { intros ->. unfold recognized_attributes in Hattr.
    rewrite !elem_of_cons, elem_of_nil in Hattr.
    by destruct Hattr as [?|[?|[?|[?|[?|[]]]]]]. }
  destruct (List.find _ (childNodes _)).
  - rewrite lookup_insert_ne by done. rewrite extract_loop_lookup.
    rewrite decide_True by done. by rewrite lookup_empty.
  - rewrite extract_loop_lookup.
    rewrite decide_True by done. by rewrite lookup_empty.
Qed.

(** C9, as the code has it: encoding a Volume View and decoding the tree
    with the create-request decoder gives, for every recognized attribute
    the view has, the string form of its value, provided that string form
    is not empty; an attribute the view does not have, or whose string form
    is empty, is absent from the decoded mapping. The decoder is given the
    tree the encoder built. *)
Theorem xml_round_trip {env : Env} (view : dict) :
  ∃ tree volume,
    xmlutil.serialize VolumeTemplate (VDict {["volume" := VDict view]})
    = Some tree
    ∧ outcome (CommonDeserializer._extract_volume (document tree)) = Ok volume
    ∧ ∀ attr, attr ∈ recognized_attributes →
        volume !! attr
        = match view !! attr with
          | Some v =>
              if String.eqb (str v) "" then None else Some (VStr (str v))
          | None => None
          end.
Proof.
  destruct (serialize_volume view) as [children Hser].
  destruct (extract_encoded_volume view children) as (volume & Hvol & Hattr).
  eexists _, volume. split; [exact Hser|]. split; [exact Hvol|].
  intros attr Hin. rewrite (Hattr attr Hin). unfold encoded_attribute.
  destruct (view !! attr) as [v|]; [|done]. simpl.
  by destruct (String.eqb (str v) "").
Qed.

(** A view of which every recognized attribute is a non-empty string comes
    back as it was. *)
Lemma xml_round_trip_witness :
  ∃ tree volume,
    xmlutil.serialize (H := sample_env) (VolumeTemplate (H := sample_env))
      (VDict {["volume" := VDict view_of_strings]}) = Some tree
    ∧ outcome (CommonDeserializer._extract_volume (H := sample_env)
                 (document tree)) = Ok volume
    ∧ volume !! "display_name" = Some (VStr "vol-1")
    ∧ volume !! "size" = Some (VStr "5")
    ∧ volume !! "display_description" = None.
Proof.
  destruct (xml_round_trip (env := sample_env) view_of_strings)
    as (tree & volume & Hser & Hvol & Hattr).
  exists tree, volume. split; [exact Hser|]. split; [exact Hvol|].
  split; [|split].
  - rewrite (Hattr "display_name")
      by (unfold recognized_attributes; rewrite !elem_of_cons; tauto).
    by vm_compute.
  - rewrite (Hattr "size")
      by (unfold recognized_attributes; rewrite !elem_of_cons; tauto).
    by vm_compute.
  - rewrite (Hattr "display_description")
      by (unfold recognized_attributes; rewrite !elem_of_cons; tauto).
    by vm_compute.
Defined.

(** A view whose size is the integer 5 and whose description is the empty
    string: the decoded size is the string "5", not the integer, and the
    description, although supplied, is absent. *)
Lemma xml_round_trip_counterexample :
  ∃ tree volume,
    xmlutil.serialize (H := sample_env) (VolumeTemplate (H := sample_env))
      (VDict {["volume" := VDict view_size_5]}) = Some tree
    ∧ outcome (CommonDeserializer._extract_volume (H := sample_env)
                 (document tree)) = Ok volume
    ∧ view_size_5 !! "size" = Some (VInt 5)
    ∧ volume !! "size" = Some (VStr "5")
    ∧ volume !! "size" ≠ view_size_5 !! "size"
    ∧ view_size_5 !! "display_description" = Some (VStr "")
    ∧ volume !! "display_description" = None.
Proof.
  eexists _, _. split; [by vm_compute|]. split; [by vm_compute|].
  repeat split; by vm_compute.
Qed.

(** * Further properties *)

(** ** The monad, continued *)

Lemma bind_ret {A} (m : M A) : (m ≫= mret) = m.
Proof.
  destruct m as [tr [a|e]]; unfold mbind, M_bind, bind; simpl; [|done].
  by rewrite app_nil_r.
Qed.

Lemma bind_ext {A B} (m : M A) (k1 k2 : A → M B) :
  (∀ a, k1 a = k2 a) → (m ≫= k1) = (m ≫= k2).
Proof.
  intros Hk. destruct m as [tr [a|e]]; unfold mbind, M_bind, bind; [|done].
  by rewrite Hk.
Qed.

Lemma call_bind {A B} ev (r : result A) (k : A → M B) :
  (call ev r ≫= k)
  = match r with
    | Ok a => (ev :: trace (k a), outcome (k a))
    | Raise e => ([ev], Raise e)
    end.
Proof.
  destruct r as [a|e]; [|done].
  unfold call, mbind, M_bind, bind, trace, outcome. by destruct (k a).
Qed.

Lemma emit_bind {B} ev (k : unit → M B) :
  (emit ev ≫= k) = (ev :: trace (k ()), outcome (k ())).
Proof.
  unfold emit, mbind, M_bind, bind, trace, outcome. by destruct (k ()).
Qed.

Lemma returned_bind {A B} tr (a : A) (k : A → M B) :
  ((tr, Ok a) ≫= k) = ((tr ++ trace (k a))%list, outcome (k a)).
Proof. unfold mbind, M_bind, bind, trace, outcome. by destruct (k a). Qed.

(** ** [show] and [delete] *)

(** X1: [show] of a volume the service does not know raises the 404 and does
    nothing but the lookup; any other error of the lookup leaves [show] as
    it is. *)
Theorem show_lookup_error {env : Env} self req id e :
  api_get (VolumeController.volume_api self) (cinder_context req) id
  = Raise e →
  VolumeController.show self req id
  = ([ApiGet (cinder_context req) id],
     Raise (if isinstance_NotFound e then HTTPNotFound None else e)).
Proof.
  intros Hget. unfold VolumeController.show. rewrite Hget.
  unfold try_except, call, VolumeController.NotFound_to_HTTPNotFound.
  by destruct (isinstance_NotFound e).
Qed.

Lemma show_lookup_error_witness :
  VolumeController.show (H := sample_env) plain_controller user_request
    (VStr "unknown")
  = ([ApiGet user_context (VStr "unknown")], Raise (HTTPNotFound None)).
Proof.
  apply (show_lookup_error (env := sample_env) plain_controller user_request
           (VStr "unknown") NotFound).
  reflexivity.
Defined.

(** ** The view translator, continued *)

(** An event of a trace, with the cases of the translator's own blocks. *)
Ltac trace_step_view Hev :=
  first
    [ trace_step Hev
    | match type of Hev with
      | _ ∈ trace (_translate_attachment_detail_view _ _) =>
          rewrite trace_attachment_view in Hev
      | _ ∈ trace (dict_of_metadata ?v) =>
          destruct v; simpl in Hev; rewrite ?trace_dict_of_items in Hev
      end ].

(** A block that logs nothing. *)
Ltac silent :=
  apply elem_of_nil_inv;
  let ev := fresh "ev" in
  let Hev := fresh "Hev" in
  intros ev Hev; repeat trace_step_view Hev; done.

(** Run one bind of a computation known to return, whose first part logs
    nothing. *)
Ltac forward_silent Hd :=
  match type of Hd with
  | outcome (?m ≫= ?k) = Ok _ =>
      let Hx := fresh "Hx" in
      let Ht := fresh "Ht" in
      assert (trace m = []) as Ht by silent;
      apply bind_Ok_inv in Hd as (? & Hx & Hd);
      rewrite (trace_bind m k), Hx, Ht;
      cbv beta zeta in Hd |- *; rewrite app_nil_l; clear Ht
  end.

Lemma summary_view_logs_once {env : Env} ctx vol image_id d :
  outcome (_translate_volume_summary_view ctx vol image_id) = Ok d →
  trace (_translate_volume_summary_view ctx vol image_id)
  = [LogAudit "vol=%s" (VDict vol) ctx].
Proof.
  unfold _translate_volume_summary_view. intros Hd.
  repeat forward_silent Hd.
  apply bind_Ok_inv in Hd as ([] & _ & Hd). rewrite trace_bind, outcome_emit.
  match goal with
  | |- (_ ++ trace ?m)%list = _ => assert (trace m = []) as -> by silent
  end.
  reflexivity.
Qed.

(** X2: every record the translator renders leaves exactly one audit entry,
    which holds the record and the context. *)
Theorem summary_view_one_audit_entry {env : Env} ctx vol image_id d :
  outcome (_translate_volume_summary_view ctx vol image_id) = Ok d →
  trace (_translate_volume_summary_view ctx vol image_id)
  = [LogAudit "vol=%s" (VDict vol) ctx].
Proof. apply summary_view_logs_once. Qed.

Lemma summary_view_one_audit_entry_witness :
  trace (_translate_volume_summary_view (H := sample_env) user_context
           fake_volume VNone)
  = [LogAudit "vol=%s" (VDict fake_volume) user_context].
Proof.
  destruct (summary_view_returns (env := sample_env) user_context
              fake_volume VNone ltac:(by vm_compute)) as [d Hd].
  exact (summary_view_one_audit_entry (env := sample_env) user_context
           fake_volume VNone d Hd).
Defined.

(** X3: a record that lacks one of the fields the translator reads with
    [vol[...]] is not rendered: the translation raises, and it does so
    before the audit entry is written. *)
Theorem summary_view_missing_field {env : Env} ctx vol image_id k :
  k ∈ required_fields → vol !! k = None →
  trace (_translate_volume_summary_view ctx vol image_id) = []
  ∧ ∃ e, outcome (_translate_volume_summary_view ctx vol image_id) = Raise e.
Proof.
  intros Hk Hnone. unfold required_fields in Hk.
  rewrite !elem_of_cons, elem_of_nil in Hk.
  split.
  - apply elem_of_nil_inv. intros ev Hev.
    unfold _translate_volume_summary_view in Hev.
    repeat trace_step_view Hev; try done.
    repeat match goal with
           | Hg : outcome (getitem _ _) = Ok _ |- _ => apply getitem_Ok in Hg
           end.
    destruct Hk as [->|[->|[->|[->|[->|[->|[->|[->|[->|[->|[]]]]]]]]]]];
      congruence.
  - destruct (outcome (_translate_volume_summary_view ctx vol image_id))
      as [d|e] eqn:Hd; [|by eexists].
    exfalso. unfold _translate_volume_summary_view in Hd. invert_binds Hd.
    destruct Hk as [->|[->|[->|[->|[->|[->|[->|[->|[->|[->|[]]]]]]]]]]];
      congruence.
Qed.

Lemma summary_view_missing_field_witness :
  trace (_translate_volume_summary_view (H := sample_env) user_context
           (delete "snapshot_id" fake_volume) VNone) = []
  ∧ ∃ e, outcome (_translate_volume_summary_view (H := sample_env)
                    user_context (delete "snapshot_id" fake_volume) VNone)
         = Raise e.
Proof.
  apply (summary_view_missing_field (env := sample_env) user_context
           (delete "snapshot_id" fake_volume) VNone "snapshot_id").
  - unfold required_fields. rewrite !elem_of_cons. tauto.
  - apply lookup_delete_eq.
Defined.

(** The three blocks of the translator change one field each. *)
Lemma attachments_block {env : Env} ctx vol (st : val) (d0 d1 : dict) :
  outcome (if eq_str st "attached"
           then attachment ← _translate_attachment_detail_view ctx vol;
                mret (append_at d0 "attachments" (VDict attachment))
           else mret d0) = Ok d1 →
  is_Some (d0 !! "attachments") →
  dom d1 = dom d0 ∧ ∀ k, k ≠ "attachments" → d1 !! k = d0 !! k.
Proof.
  intros Hb [a Ha]. invert_block Hb; subst d1; [|done].
  unfold append_at. rewrite Ha. destruct a; try done.
  split.
  - rewrite dom_insert_L. apply elem_of_dom_2 in Ha.
    by apply subseteq_union_1_L, singleton_subseteq_l.
  - intros k Hk. by rewrite lookup_insert_ne.
Qed.

Lemma volume_type_block {env : Env} vol (c : bool) (s : string)
    (d0 d1 : dict) :
  outcome (if c
           then volume_type ← getitem vol "volume_type";
                name ← subscript volume_type "name";
                mret (<["volume_type" := name]> d0)
           else mret (<["volume_type" := VStr s]> d0)) = Ok d1 →
  dom d1 = {["volume_type"]} ∪ dom d0
  ∧ ∀ k, k ≠ "volume_type" → d1 !! k = d0 !! k.
Proof.
  intros Hb. invert_block Hb; subst d1;
    (split; [apply dom_insert_L|intros k Hk; by rewrite lookup_insert_ne]).
Qed.

Lemma metadata_block {env : Env} vol (d0 d1 : dict) :
  outcome (if truthy (dict_get vol "volume_metadata") then
             let metadata := dict_get vol "volume_metadata" in
             md ← dict_of_metadata metadata;
             mret (<["metadata" := VDict md]> d0)
           else if truthy (dict_get vol "metadata")
                   && isinstance_dict (dict_get vol "metadata") then
             md ← getitem vol "metadata";
             mret (<["metadata" := md]> d0)
           else
             mret (<["metadata" := VDict ∅]> d0)) = Ok d1 →
  dom d1 = {["metadata"]} ∪ dom d0
  ∧ ∀ k, k ≠ "metadata" → d1 !! k = d0 !! k.
Proof.
  intros Hb. cbv zeta in Hb. invert_block Hb; subst d1;
    (split; [apply dom_insert_L|intros k Hk; by rewrite lookup_insert_ne]).
Qed.

(** The fields of a rendered view. *)
Lemma summary_view_fields {env : Env} ctx vol image_id d :
  outcome (_translate_volume_summary_view ctx vol image_id) = Ok d →
  dom d = view_fields ∪ (if truthy image_id then {["image_id"]} else ∅)
  ∧ (∀ k, k ∈ copied_fields → d !! k = vol !! k)
  ∧ d !! "image_id" = (if truthy image_id then Some image_id else None).
Proof.
  unfold _translate_volume_summary_view. intros Hd. invert_binds Hd.
  apply metadata_block in Hd as [Dm Lm].
  match goal with
  | Hb : outcome (if truthy _ && _ then _ else _) = Ok _ |- _ =>
      apply volume_type_block in Hb as [Dt Lt]
  end.
  match goal with
  | Hb : outcome (if eq_str _ _ then _ else _) = Ok _ |- _ =>
      apply attachments_block in Hb as [Da La];
      [|by rewrite lookup_insert_eq]
  end.
  split; [|split].
  - rewrite Dm. unfold view_fields.
    destruct (truthy image_id);
      rewrite !dom_insert_L, Dt, !dom_insert_L, Da, !dom_insert_L,
        dom_empty_L; set_solver.
  - intros k Hk. unfold copied_fields in Hk.
    rewrite !elem_of_cons, elem_of_nil in Hk.
    rewrite Lm by (by destruct Hk as [->|[->|[->|[->|[->|[->|[->|[->|[]]]]]]]]]).
    destruct (truthy image_id);
      destruct Hk as [->|[->|[->|[->|[->|[->|[->|[->|[]]]]]]]]];
      rewrite ?lookup_insert_eq, ?(lookup_insert_ne _ "image_id") by done;
      rewrite ?lookup_insert_eq, ?(lookup_insert_ne _ "snapshot_id") by done;
      rewrite ?Lt by done;
      rewrite ?lookup_insert_eq, ?(lookup_insert_ne _ "display_description"),
        ?lookup_insert_eq, ?(lookup_insert_ne _ "display_name") by done;
      rewrite ?lookup_insert_eq, ?La by done;
      by simplify_map_eq.
  - rewrite Lm by done. destruct (truthy image_id).
    + apply lookup_insert_eq.
    + rewrite lookup_insert_ne by done. rewrite Lt by done.
      rewrite !lookup_insert_ne by done. rewrite La by done.
      by simplify_map_eq.
Qed.

(** X4: the shape of a rendered view. It has the eleven fields of a view, and
    the image id exactly when a non-empty one was passed; no other field of
    the record reaches it. Eight fields are taken over from the record as
    they are. *)
Theorem summary_view_shape {env : Env} ctx vol image_id d :
  outcome (_translate_volume_summary_view ctx vol image_id) = Ok d →
  dom d = view_fields ∪ (if truthy image_id then {["image_id"]} else ∅)
  ∧ (∀ k, k ∈ copied_fields → d !! k = vol !! k)
  ∧ d !! "image_id" = (if truthy image_id then Some image_id else None).
Proof. apply summary_view_fields. Qed.

Lemma summary_view_shape_witness :
  ∃ d,
    outcome (_translate_volume_summary_view (H := sample_env) user_context
               fake_volume (VStr "img-1")) = Ok d
    ∧ d !! "image_id" = Some (VStr "img-1")
    ∧ d !! "host" = None
    ∧ d !! "size" = Some (VInt 5).
Proof.
  destruct (summary_view_returns (env := sample_env) user_context
              fake_volume (VStr "img-1") ltac:(by vm_compute)) as [d Hd].
  destruct (summary_view_shape (env := sample_env) user_context fake_volume
              (VStr "img-1") d Hd) as (Hdom & Hcopy & Himg).
  exists d. split; [exact Hd|]. split; [exact Himg|]. split.
  - apply not_elem_of_dom. rewrite Hdom. by vm_compute.
  - rewrite (Hcopy "size")
      by (unfold copied_fields; rewrite !elem_of_cons; tauto).
    by vm_compute.
Defined.

Lemma mapping_of_pairs_step (acc : dict) (items : list val) (k : string) :
  Forall (λ item, pair_key item ≠ Some k) items →
  foldl (λ acc item,
           match item with
           | VDict p =>
               match p !! "key", p !! "value" with
               | Some (VStr k), Some v => <[k := v]> acc
               | _, _ => acc
               end
           | _ => acc
           end) acc items !! k = acc !! k.
Proof.
  revert acc. induction items as [|item items IH]; intros acc Hk; [done|].
  apply Forall_cons in Hk as [Hitem Hk]. cbn [foldl]. rewrite IH by done.
  destruct item as [| | | | |p]; try done. unfold pair_key in Hitem.
  destruct (p !! "key") as [[| | |k'| |]|]; try done.
  destruct (p !! "value"); [|done].
  rewrite lookup_insert_ne; [done|]. by intros ->.
Qed.

(** X5: when the pair list names a key more than once, the last pair wins:
    the rendered metadata maps a key to the value of the last pair that has
    that key. *)
Theorem metadata_last_pair_wins {env : Env} ctx vol image_id
    (before after : list val) (p : dict) (k : string) (v : val) :
  well_formed vol = true →
  vol !! "volume_metadata" = Some (VList (before ++ VDict p :: after)) →
  p !! "key" = Some (VStr k) → p !! "value" = Some v →
  Forall (λ item, pair_key item ≠ Some k) after →
  ∃ d md,
    outcome (_translate_volume_summary_view ctx vol image_id) = Ok d
    ∧ d !! "metadata" = Some (VDict md)
    ∧ md !! k = Some v.
Proof.
  intros Hwf Hvm Hkey Hval Hafter.
  destruct (summary_view_returns ctx vol image_id Hwf) as [d Hd].
  pose proof (summary_view_metadata _ _ _ _ Hd) as Hmd.
  unfold well_formed in Hwf. apply andb_true_iff in Hwf as [_ Hpairs].
  rewrite (dict_get_Some _ _ _ Hvm) in Hmd, Hpairs.
  assert (truthy (VList (before ++ VDict p :: after)) = true) as Htr.
  { simpl. rewrite length_app. simpl. by rewrite Nat.add_succ_r. }
  rewrite Htr in Hmd, Hpairs. destruct Hmd as (md & Hitems & Hlook).
  exists d, md. split; [done|]. split; [done|].
  simpl in Hitems. rewrite dict_of_items_pairs in Hitems by done.
  injection Hitems as <-. rewrite foldl_app. cbn [foldl].
  rewrite mapping_of_pairs_step by done. rewrite Hkey, Hval.
  apply lookup_insert_eq.
Qed.

Lemma metadata_last_pair_wins_witness :
  ∃ d md,
    outcome (_translate_volume_summary_view (H := sample_env) user_context
               volume_with_repeated_key VNone) = Ok d
    ∧ d !! "metadata" = Some (VDict md)
    ∧ md !! "a" = Some (VStr "2").
Proof.
  apply (metadata_last_pair_wins (env := sample_env) user_context
           volume_with_repeated_key VNone [pair_a1]
           [VDict {["key" := VStr "b"; "value" := VStr "3"]}]
           {["key" := VStr "a"; "value" := VStr "2"]} "a" (VStr "2")).
  - by vm_compute.
  - by vm_compute.
  - by vm_compute.
  - by vm_compute.
  - apply Forall_cons. split; [by vm_compute|apply Forall_nil_2].
Defined.

(** ** The option filter, continued *)

Lemma remove_invalid_options_outcome ctx (opts : dict) allowed :
  outcome (remove_invalid_options ctx opts allowed)
  = Ok (if is_admin ctx then opts
        else filter (λ kv, kv.1 ∈ allowed) opts).
Proof.
  unfold remove_invalid_options. destruct (is_admin ctx); [done|].
  rewrite outcome_bind, outcome_emit, outcome_ret. f_equal.
  apply map_eq. intros k. rewrite foldl_delete_lookup.
  destruct (decide (k ∈ allowed)) as [Hin|Hout].
  - rewrite decide_False by (rewrite list_elem_of_filter; by intros [? _]).
    destruct (opts !! k) as [v|] eqn:Hk; symmetry.
    + by apply map_lookup_filter_Some_2.
    + apply map_lookup_filter_None_2. by left.
  - rewrite (proj2 (map_lookup_filter_None _ opts k))
      by (right; by intros v _ Hin).
    destruct (opts !! k) as [v|] eqn:Hk; [|by case_decide].
    rewrite decide_True; [done|].
    rewrite list_elem_of_filter, elem_of_keys. by rewrite Hk.
Qed.

(** X6: filtering is idempotent: options that have been filtered pass a
    second filtering unchanged. *)
Theorem option_filter_idempotent ctx (opts filtered : dict) allowed :
  outcome (remove_invalid_options ctx opts allowed) = Ok filtered →
  outcome (remove_invalid_options ctx filtered allowed) = Ok filtered.
Proof.
  rewrite !remove_invalid_options_outcome. intros [= <-].
  destruct (is_admin ctx); [done|]. f_equal.
  apply map_eq. intros k.
  destruct (filter (λ kv, kv.1 ∈ allowed) opts !! k) as [v|] eqn:Hk.
  - apply map_lookup_filter_Some_2; [done|].
    by apply map_lookup_filter_Some_1_2 in Hk.
  - apply map_lookup_filter_None_2. by left.
Qed.

Lemma option_filter_idempotent_witness :
  outcome (remove_invalid_options user_context
             {["display_name" := VStr "x"]} ["display_name"; "status"])
  = Ok {["display_name" := VStr "x"]}.
Proof.
  apply (option_filter_idempotent user_context
           {["display_name" := VStr "x"; "foo" := VStr "y"]}).
  by vm_compute.
Defined.

(** X7: what the filter logs. For a privileged context nothing; for any
    other exactly one debug line, also when nothing is removed; the line
    names each removed key once, and no other key. *)
Theorem option_filter_log ctx (opts : dict) allowed :
  if is_admin ctx
  then trace (remove_invalid_options ctx opts allowed) = []
  else ∃ removed,
      trace (remove_invalid_options ctx opts allowed)
      = [LogDebug ("Removing options '" ++ join ", " removed
                   ++ "' from query")]
      ∧ NoDup removed
      ∧ ∀ k, k ∈ removed ↔ is_Some (opts !! k) ∧ k ∉ allowed.
Proof.
  unfold remove_invalid_options. destruct (is_admin ctx); [done|].
  eexists. split; [reflexivity|]. split.
  - apply NoDup_filter, NoDup_fst_map_to_list.
  - intros k. rewrite list_elem_of_filter, elem_of_keys. tauto.
Qed.

(** ** [index] and [detail] *)

Lemma for_each_ext {A S : Type} (xs : list A) (acc : S)
    (body1 body2 : S → A → M S) :
  (∀ acc x, body1 acc x = body2 acc x) →
  for_each xs acc body1 = for_each xs acc body2.
Proof.
  intros Hext. revert acc. induction xs as [|x xs IH]; intros acc; [done|].
  cbn [for_each]. rewrite Hext. by apply bind_ext.
Qed.

Lemma detail_view_is_summary_view {env : Env} ctx vol image_id :
  _translate_volume_detail_view ctx vol image_id
  = _translate_volume_summary_view ctx vol image_id.
Proof. unfold _translate_volume_detail_view. apply bind_ret. Qed.

(** X8: the detailed list is the summary list: [detail] does to a request
    what [index] does, with the same calls, log entries and result. *)
Theorem detail_is_index {env : Env} self req :
  VolumeController.detail self req = VolumeController.index self req.
Proof.
  unfold VolumeController.detail, VolumeController.index,
    VolumeController._items.
  apply bind_ext. intros search_opts. apply bind_ext. intros volumes.
  f_equal. apply for_each_ext. intros res vol.
  by rewrite detail_view_is_summary_view.
Qed.

(** The views of a list of records, in order. *)
Lemma items_loop {env : Env} ctx (vols : list dict) (views : list dict)
    (acc : list val) :
  Forall2 (λ vol d,
             outcome (_translate_volume_summary_view ctx vol VNone) = Ok d)
          vols views →
  outcome (for_each vols acc
             (λ res vol, v ← _translate_volume_summary_view ctx vol VNone;
                         mret (res ++ [VDict v])%list))
  = Ok (acc ++ (VDict <$> views))%list.
Proof.
  intros Hall. revert acc.
  induction Hall as [|vol d vols views Hd Hall IH]; intros acc.
  - by rewrite app_nil_r.
  - cbn [for_each]. rewrite !outcome_bind, Hd, outcome_ret, IH.
    by rewrite <- app_assoc.
Qed.

(** The loop over the records logs the translator's audit entries. *)
Lemma trace_items_loop {env : Env} ctx (vols : list dict) (acc : list val)
    ev :
  ev ∈ trace (for_each vols acc
                (λ res vol, v ← _translate_volume_summary_view ctx vol VNone;
                            mret (res ++ [VDict v])%list)) →
  ∃ vol, ev = LogAudit "vol=%s" (VDict vol) ctx.
Proof.
  revert acc. induction vols as [|vol vols IH]; intros acc Hev.
  { by apply elem_of_nil in Hev. }
  cbn [for_each] in Hev. repeat trace_step Hev.
  - apply trace_summary_view in Hev. by exists vol.
  - by eapply IH.
Qed.

Lemma views_exist {env : Env} ctx (vols : list dict) :
  Forall (λ vol, well_formed vol = true) vols →
  ∃ views,
    Forall2 (λ vol d,
               outcome (_translate_volume_summary_view ctx vol VNone) = Ok d)
            vols views.
Proof.
  induction 1 as [|vol vols Hwf _ [views IH]]; [by exists []|].
  destruct (summary_view_returns ctx vol VNone Hwf) as [d Hd].
  exists (d :: views). by constructor.
Qed.

(** X9: [index] asks the volume service for the volumes with the query
    filtered for the caller, and with no other options: a privileged
    caller's query as it is, any other caller's query reduced to the display
    name and the status. *)
Theorem index_search_options {env : Env} self req c opts :
  ApiGetAll c opts ∈ trace (VolumeController.index self req) ↔
  c = cinder_context req
  ∧ opts = search_options_of (cinder_context req) (GET req).
Proof.
  unfold VolumeController.index, VolumeController._items.
  rewrite (right_id_L ∅ (∪)).
  pose proof (remove_invalid_options_outcome (cinder_context req) (GET req)
                (VolumeController._get_volume_search_options self)) as Hout.
  fold (search_options_of (cinder_context req) (GET req)) in Hout.
  split.
  - intros Hev. rewrite trace_bind, Hout in Hev.
    apply elem_of_app in Hev as [Hev|Hev].
    { unfold remove_invalid_options in Hev.
      destruct (is_admin (cinder_context req)); repeat trace_step Hev; done. }
    rewrite trace_bind in Hev. apply elem_of_app in Hev as [Hev|Hev].
    { apply list_elem_of_singleton in Hev. by injection Hev as -> ->. }
    destruct (outcome (call _ _)) as [volumes|]; [|by apply elem_of_nil in Hev].
    rewrite trace_bind in Hev. apply elem_of_app in Hev as [Hev|Hev];
      [|destruct (outcome _); repeat trace_step Hev].
    by apply trace_items_loop in Hev as [vol ?].
  - intros [-> ->]. rewrite trace_bind, Hout. apply elem_of_app. right.
    rewrite trace_bind. apply elem_of_app. left.
    by apply list_elem_of_singleton.
Qed.

Lemma index_search_options_witness :
  ApiGetAll user_context ∅
  ∈ trace (VolumeController.index (H := sample_env) plain_controller
             user_request).
Proof.
  apply (index_search_options (env := sample_env) plain_controller
           user_request user_context ∅).
  split; [reflexivity|by vm_compute].
Defined.

(** X10: when the service answers and the records are well formed, [index]
    returns one view per record that the limiting function lets through,
    in the same order, each the translator's view of its record. *)
Theorem index_views {env : Env} self req volumes :
  api_get_all (VolumeController.volume_api self) (cinder_context req)
    (search_options_of (cinder_context req) (GET req)) = Ok volumes →
  Forall (λ vol, well_formed vol = true) (limited volumes req) →
  ∃ views,
    Forall2 (λ vol d,
               outcome (_translate_volume_summary_view (cinder_context req)
                          vol VNone) = Ok d)
            (limited volumes req) views
    ∧ outcome (VolumeController.index self req)
      = Ok (VDict {["volumes" := VList (VDict <$> views)]}).
Proof.
  intros Hall Hwf.
  destruct (views_exist (cinder_context req) _ Hwf) as [views Hviews].
  exists views. split; [done|].
  unfold VolumeController.index, VolumeController._items.
  rewrite (right_id_L ∅ (∪)).
  assert (outcome (remove_invalid_options (cinder_context req) (GET req)
                     (VolumeController._get_volume_search_options self))
          = Ok (search_options_of (cinder_context req) (GET req))) as Hout
    by apply remove_invalid_options_outcome.
  rewrite outcome_bind, Hout. cbv beta iota.
  rewrite Hall, outcome_call_bind.
  rewrite outcome_bind, (items_loop _ _ views) by done.
  by rewrite outcome_ret.
Qed.

Lemma index_views_witness :
  ∃ view,
    outcome (_translate_volume_summary_view (H := sample_env) user_context
               fake_volume VNone) = Ok view
    ∧ outcome (VolumeController.index (H := sample_env) plain_controller
                 user_request)
      = Ok (VDict {["volumes" := VList [VDict view]]}).
Proof.
  destruct (index_views (env := sample_env) plain_controller user_request
              [fake_volume] eq_refl) as (views & Hviews & Hout).
  - apply Forall_cons. split; [by vm_compute|apply Forall_nil_2].
  - apply Forall2_cons_inv_l in Hviews as (view & rest & Hview & Hrest & ->).
    apply Forall2_nil_inv_l in Hrest as ->.
    exists view. split; [exact Hview|exact Hout].
Defined.

(** ** [show] and [delete], continued *)

(** X11: [show] of a well-formed record the service knows returns the
    translator's view of that record under the key [volume]; it asks the
    service once and leaves the translator's audit entry. *)
Theorem show_found {env : Env} self req id vol :
  api_get (VolumeController.volume_api self) (cinder_context req) id
  = Ok vol →
  well_formed vol = true →
  ∃ view,
    outcome (_translate_volume_summary_view (cinder_context req) vol VNone)
    = Ok view
    ∧ VolumeController.show self req id
      = ([ApiGet (cinder_context req) id;
          LogAudit "vol=%s" (VDict vol) (cinder_context req)],
         Ok (VDict {["volume" := VDict view]})).
Proof.
  intros Hget Hwf.
  destruct (summary_view_returns (cinder_context req) vol VNone Hwf)
    as [view Hview].
  exists view. split; [done|].
  unfold VolumeController.show. rewrite Hget.
  change (try_except (call ?ev (Ok vol)) _) with (call ev (Ok vol)).
  rewrite call_bind. cbv beta.
  rewrite detail_view_is_summary_view, trace_bind, outcome_bind, Hview.
  by rewrite (summary_view_logs_once _ _ _ _ Hview).
Qed.

Lemma show_found_witness :
  ∃ view,
    outcome (_translate_volume_summary_view (H := sample_env) user_context
               fake_volume VNone) = Ok view
    ∧ VolumeController.show (H := sample_env) plain_controller user_request
        (VStr "fake")
      = ([ApiGet user_context (VStr "fake");
          LogAudit "vol=%s" (VDict fake_volume) user_context],
         Ok (VDict {["volume" := VDict view]})).
Proof.
  apply (show_found (env := sample_env) plain_controller user_request
           (VStr "fake") fake_volume).
  - reflexivity.
  - by vm_compute.
Defined.

(** [delete], by the answers of the service. *)
Lemma delete_unfold self req id :
  VolumeController.delete self req id
  = match api_get (VolumeController.volume_api self) (cinder_context req) id
    with
    | Ok volume =>
        ([LogAudit "Delete volume with id: %s" id (cinder_context req);
          ApiGet (cinder_context req) id;
          ApiDelete (cinder_context req) volume],
         match api_delete (VolumeController.volume_api self)
                 (cinder_context req) volume
         with
         | Ok _ => Ok {| status_int := 202 |}
         | Raise e =>
             Raise (if isinstance_NotFound e then HTTPNotFound None else e)
         end)
    | Raise e =>
        ([LogAudit "Delete volume with id: %s" id (cinder_context req);
          ApiGet (cinder_context req) id],
         Raise (if isinstance_NotFound e then HTTPNotFound None else e))
    end.
Proof.
  unfold VolumeController.delete. cbv zeta.
  rewrite emit_bind. cbv beta. rewrite call_bind.
  destruct (api_get _ _ id) as [volume|e].
  - cbv beta. destruct (api_delete _ _ volume) as [[]|e]; [done|].
    unfold try_except, call, VolumeController.NotFound_to_HTTPNotFound.
    simpl. by destruct (isinstance_NotFound e).
  - unfold try_except, call, VolumeController.NotFound_to_HTTPNotFound.
    simpl. by destruct (isinstance_NotFound e).
Qed.

(** X12: [delete] answers 202 exactly when the service knows the volume and
    accepts its deletion; the audit entry, the lookup and the deletion of
    the record that was looked up then happen in this order. *)
Theorem delete_accepted self req id r :
  outcome (VolumeController.delete self req id) = Ok r ↔
  ∃ volume,
    api_get (VolumeController.volume_api self) (cinder_context req) id
    = Ok volume
    ∧ api_delete (VolumeController.volume_api self) (cinder_context req)
        volume = Ok ()
    ∧ r = {| status_int := 202 |}
    ∧ trace (VolumeController.delete self req id)
      = [LogAudit "Delete volume with id: %s" id (cinder_context req);
         ApiGet (cinder_context req) id;
         ApiDelete (cinder_context req) volume].
Proof.
  rewrite delete_unfold.
  destruct (api_get _ _ id) as [volume|e].
  - destruct (api_delete _ _ volume) as [[]|e] eqn:Hdel.
    + split.
      * intros [= <-]. by exists volume.
      * by intros (? & _ & _ & -> & _).
    + split; [done|]. intros (v & [= <-] & Hd & _). congruence.
  - split; [done|]. by intros (v & [=] & _).
Qed.

Lemma delete_accepted_witness :
  outcome (VolumeController.delete plain_controller user_request
             (VStr "fake"))
  = Ok {| status_int := 202 |}.
Proof.
  apply (delete_accepted plain_controller user_request (VStr "fake")
           {| status_int := 202 |}).
  exists fake_volume. repeat split; reflexivity.
Defined.

(** X13: [delete] of a volume the service does not know raises the 404 after
    the audit entry and the lookup; the service is not asked to delete
    anything. Any other error of the lookup leaves [delete] as it is. *)
Theorem delete_lookup_error self req id e :
  api_get (VolumeController.volume_api self) (cinder_context req) id
  = Raise e →
  VolumeController.delete self req id
  = ([LogAudit "Delete volume with id: %s" id (cinder_context req);
      ApiGet (cinder_context req) id],
     Raise (if isinstance_NotFound e then HTTPNotFound None else e)).
Proof.
  intros Hget. by rewrite delete_unfold, Hget.
Qed.

Lemma delete_lookup_error_witness :
  VolumeController.delete plain_controller user_request
    (VStr "unknown")
  = ([LogAudit "Delete volume with id: %s" (VStr "unknown") user_context;
      ApiGet user_context (VStr "unknown")],
     Raise (HTTPNotFound None)).
Proof.
  apply (delete_lookup_error plain_controller
           user_request (VStr "unknown") NotFound).
  reflexivity.
Defined.

(** X14: an error of the deletion itself is treated like one of the lookup:
    a [NotFound] of the service becomes the 404. *)
Theorem delete_service_error self req id volume e :
  api_get (VolumeController.volume_api self) (cinder_context req) id
  = Ok volume →
  api_delete (VolumeController.volume_api self) (cinder_context req) volume
  = Raise e →
  VolumeController.delete self req id
  = ([LogAudit "Delete volume with id: %s" id (cinder_context req);
      ApiGet (cinder_context req) id;
      ApiDelete (cinder_context req) volume],
     Raise (if isinstance_NotFound e then HTTPNotFound None else e)).
Proof.
  intros Hget Hdel. by rewrite delete_unfold, Hget, Hdel.
Qed.

Lemma delete_service_error_witness :
  VolumeController.delete vanishing_controller user_request
    (VStr "fake")
  = ([LogAudit "Delete volume with id: %s" (VStr "fake") user_context;
      ApiGet user_context (VStr "fake");
      ApiDelete user_context fake_volume],
     Raise (HTTPNotFound None)).
Proof.
  apply (delete_service_error vanishing_controller
           user_request (VStr "fake") fake_volume NotFound);
    reflexivity.
Defined.

(** ** [_image_uuid_from_href] *)

Lemma string_app_cons (c : ascii) (s1 s2 : string) :
  String c s1 ++ s2 = String c (s1 ++ s2).
Proof. reflexivity. Qed.

Lemma string_app_nil_l (s : string) : "" ++ s = s.
Proof. reflexivity. Qed.

Lemma string_app_nil_r (s : string) : s ++ "" = s.
Proof.
  induction s as [|c s IH]; [done|]. by rewrite string_app_cons, IH.
Qed.

Lemma string_app_assoc (s1 s2 s3 : string) : (s1 ++ s2) ++ s3 = s1 ++ s2 ++ s3.
Proof.
  induction s1 as [|c s1 IH]; [done|]. by rewrite !string_app_cons, IH.
Qed.

Lemma split_pop_no_slash (s segment : string) :
  has_slash s = false → split_pop s segment = segment ++ s.
Proof.
  revert segment. induction s as [|c s IH]; intros segment Hs.
  - cbn [split_pop]. by rewrite string_app_nil_r.
  - cbn [has_slash] in Hs. apply orb_false_iff in Hs as [Hc Hs].
    cbn [split_pop]. rewrite Hc, IH by done.
    by rewrite string_app_assoc.
Qed.

Lemma split_pop_after_slash (prefix s segment : string) :
  split_pop (prefix ++ String "/" s) segment = split_pop s "".
Proof.
  revert segment. induction prefix as [|c prefix IH]; intros segment.
  - reflexivity.
  - rewrite string_app_cons. cbn [split_pop]. by destruct (Ascii.eqb c "/"); rewrite IH.
Qed.

Lemma has_slash_app (s1 s2 : string) :
  has_slash (s1 ++ s2) = has_slash s1 || has_slash s2.
Proof.
  induction s1 as [|c s1 IH]; [done|].
  rewrite string_app_cons. cbn [has_slash]. by rewrite IH, orb_assoc.
Qed.

(** What [split('/').pop()] gives: a text without a slash, which is either
    the whole text or what follows its last slash. *)
Lemma split_pop_spec (s segment : string) :
  has_slash segment = false →
  has_slash (split_pop s segment) = false
  ∧ ((has_slash s = false ∧ split_pop s segment = segment ++ s)
     ∨ ∃ prefix, s = prefix ++ String "/" (split_pop s segment)).
Proof.
  revert segment. induction s as [|c s IH]; intros segment Hseg.
  - cbn [split_pop]. split; [done|]. left.
    by rewrite string_app_nil_r.
  - cbn [split_pop has_slash]. destruct (Ascii.eqb c "/") eqn:Hc.
    + apply Ascii.eqb_eq in Hc as ->.
      destruct (IH "" eq_refl) as [Hno [[Hs Hpop]|[prefix Hpre]]].
      * split; [done|]. right. exists "". by rewrite Hpop.
      * split; [done|]. right. exists (String "/" prefix).
        by rewrite string_app_cons, <- Hpre.
    + destruct (IH (segment ++ String c ""))
        as [Hno [[Hs Hpop]|[prefix Hpre]]].
      { rewrite has_slash_app. cbn [has_slash]. by rewrite Hseg, Hc. }
      * split; [done|]. left. split; [done|].
        by rewrite Hpop, string_app_assoc.
      * split; [done|]. right. exists (String c prefix).
        by rewrite string_app_cons, <- Hpre.
Qed.

Lemma image_uuid_from_href_str {env : Env} self (s : string) :
  VolumeController._image_uuid_from_href self (VStr s)
  = if is_uuid_like (split_pop s "")
    then mret (split_pop s "")
    else raise (HTTPBadRequest "Invalid imageRef provided.").
Proof.
  unfold VolumeController._image_uuid_from_href.
  change (try_except (mret ?a) _) with (mret a : M string).
  rewrite ret_bind. by destruct (is_uuid_like _).
Qed.

(** X15: an image reference is stripped down to what follows its last slash.
    A reference that ends in [/] and an identifier without a slash is
    treated like the identifier alone, which is returned when it is
    uuid-like and refused with the 400 otherwise. *)
Theorem image_href_stripped {env : Env} self (prefix uuid : string) :
  has_slash uuid = false →
  VolumeController._image_uuid_from_href self
    (VStr (prefix ++ String "/" uuid))
  = VolumeController._image_uuid_from_href self (VStr uuid)
  ∧ VolumeController._image_uuid_from_href self (VStr uuid)
    = ([], if is_uuid_like uuid then Ok uuid
           else Raise (HTTPBadRequest "Invalid imageRef provided.")).
Proof.
  intros Hno. rewrite !image_uuid_from_href_str, split_pop_after_slash.
  rewrite (split_pop_no_slash uuid "" Hno), string_app_nil_l.
  split; [done|]. by destruct (is_uuid_like uuid).
Qed.

Lemma image_href_stripped_witness :
  VolumeController._image_uuid_from_href (H := sample_env) image_controller
    (VStr image_href_1)
  = ([], Ok image_uuid_1).
Proof.
  destruct (image_href_stripped (env := sample_env) image_controller
              "http://glance.example/v1/images" image_uuid_1 eq_refl)
    as [Hhref Huuid].
  etrans; [exact Hhref|exact Huuid].
Defined.

(** X16: what [_image_uuid_from_href] answers. It calls no collaborator and
    writes no log entry. When it returns, the reference was a text; the
    result holds no slash, is uuid-like, and is the whole reference or what
    follows its last slash. Every refusal is the 400 "Invalid imageRef
    provided.", also for a reference that is not a text. *)
Theorem image_uuid_from_href_answers {env : Env} self image_href :
  trace (VolumeController._image_uuid_from_href self image_href) = []
  ∧ match outcome (VolumeController._image_uuid_from_href self image_href)
    with
    | Ok uuid =>
        is_uuid_like uuid = true ∧ has_slash uuid = false
        ∧ ∃ s, image_href = VStr s
               ∧ (s = uuid ∨ ∃ prefix, s = prefix ++ String "/" uuid)
    | Raise e => e = HTTPBadRequest "Invalid imageRef provided."
    end.
Proof.
  split; [apply trace_image_uuid_from_href|].
  destruct image_href as [| | |s| |]; try done.
  rewrite image_uuid_from_href_str.
  destruct (is_uuid_like (split_pop s "")) eqn:Huuid; [|done].
  rewrite outcome_ret.
  destruct (split_pop_spec s "" eq_refl) as [Hno [[_ Hpop]|[prefix Hpre]]].
  - repeat split; [done..|]. exists s. split; [done|]. by left.
  - repeat split; [done..|]. exists s. split; [done|]. right. by exists prefix.
Qed.

(** ** [update] *)

(** X17: [update] refuses an empty body and a mapping without the key
    [volume] with the 422, before it calls the service or writes a log
    entry. *)
Theorem update_rejects_body {env : Env} self req id body :
  truthy body = false ∨ (∃ b, body = VDict b ∧ b !! "volume" = None) →
  VolumeController.update self req id body
  = ([], Raise HTTPUnprocessableEntity).
Proof.
  unfold VolumeController.update. intros [Hfalsy|(b & -> & Hb)].
  - by rewrite Hfalsy.
  - destruct (truthy (VDict b)); [|done]. simpl negb. cbv iota.
    unfold contains. rewrite bool_decide_eq_false_2; [done|].
    rewrite Hb. by intros [? ?].
Qed.

Lemma update_rejects_body_witness :
  VolumeController.update (H := sample_env) plain_controller user_request
    (VStr "fake") (VDict ∅)
  = ([], Raise HTTPUnprocessableEntity)
  ∧ VolumeController.update (H := sample_env) plain_controller user_request
      (VStr "fake") (VDict {["display_name" := VStr "new"]})
    = ([], Raise HTTPUnprocessableEntity).
Proof.
  split.
  - apply (update_rejects_body (env := sample_env)). by left.
  - apply (update_rejects_body (env := sample_env)). right.
    exists {["display_name" := VStr "new"]}. split; [done|].
    by vm_compute.
Defined.

(** X18: when the service does not know the volume, or refuses the update,
    [update] raises without rendering a view: a [NotFound] of the service
    becomes the 404, any other error leaves [update] as it is. After a
    failed lookup the service is not asked to update anything. *)
Theorem update_service_error {env : Env} self req id b volume :
  b !! "volume" = Some (VDict volume) →
  (∀ e,
     api_get (VolumeController.volume_api self) (cinder_context req) id
     = Raise e →
     VolumeController.update self req id (VDict b)
     = ([ApiGet (cinder_context req) id],
        Raise (if isinstance_NotFound e then HTTPNotFound None else e)))
  ∧ (∀ vol e,
       api_get (VolumeController.volume_api self) (cinder_context req) id
       = Ok vol →
       api_update (VolumeController.volume_api self) (cinder_context req)
         vol (mutable_part volume) = Raise e →
       VolumeController.update self req id (VDict b)
       = ([ApiGet (cinder_context req) id;
           ApiUpdate (cinder_context req) vol (mutable_part volume)],
          Raise (if isinstance_NotFound e then HTTPNotFound None else e))).
Proof.
  intros Hb. rewrite (update_unfold _ _ _ _ _ Hb). split.
  - intros e ->.
    unfold try_except, call, VolumeController.NotFound_to_HTTPNotFound.
    simpl. by destruct (isinstance_NotFound e).
  - intros vol e -> Hupd. rewrite call_bind. cbv beta. rewrite Hupd.
    unfold try_except, call, VolumeController.NotFound_to_HTTPNotFound.
    simpl. by destruct (isinstance_NotFound e).
Qed.

Lemma update_service_error_witness :
  VolumeController.update (H := sample_env) plain_controller user_request
    (VStr "unknown") (body_of {["display_name" := VStr "new"]})
  = ([ApiGet user_context (VStr "unknown")], Raise (HTTPNotFound None)).
Proof.
  destruct (update_service_error (env := sample_env) plain_controller
              user_request (VStr "unknown")
              {["volume" := VDict {["display_name" := VStr "new"]}]}
              {["display_name" := VStr "new"]} ltac:(by vm_compute))
    as [Hlookup _].
  apply (Hlookup NotFound). reflexivity.
Defined.

(** X19: an accepted update answers with the view of the record the service
    returned, overlaid with the submitted mutable fields. The service is
    asked for the record and then for the update; the audit entry holds the
    overlaid record. A submitted display name or description is the one of
    the view; every other copied field is the record's. *)
Theorem update_view_merges {env : Env} self req id b volume vol :
  b !! "volume" = Some (VDict volume) →
  api_get (VolumeController.volume_api self) (cinder_context req) id
  = Ok vol →
  api_update (VolumeController.volume_api self) (cinder_context req) vol
    (mutable_part volume) = Ok () →
  well_formed (mutable_part volume ∪ vol) = true →
  ∃ view,
    VolumeController.update self req id (VDict b)
    = ([ApiGet (cinder_context req) id;
        ApiUpdate (cinder_context req) vol (mutable_part volume);
        LogAudit "vol=%s" (VDict (mutable_part volume ∪ vol))
          (cinder_context req)],
       Ok (VDict {["volume" := VDict view]}))
    ∧ (∀ k, k ∈ ["display_name"; "display_description"] →
         view !! k = match volume !! k with
                     | Some v => Some v
                     | None => vol !! k
                     end)
    ∧ (∀ k, k ∈ copied_fields → k ∉ mutable_fields → view !! k = vol !! k).
Proof.
  intros Hb Hget Hupd Hwf.
  destruct (summary_view_returns (cinder_context req) _ VNone Hwf)
    as [view Hview].
  destruct (summary_view_fields _ _ _ _ Hview) as (_ & Hcopy & _).
  exists view. split; [|split].
  - rewrite (update_unfold _ _ _ _ _ Hb), Hget, call_bind. cbv beta.
    rewrite Hupd.
    match goal with
    | |- try_except ?m ?h ≫= _ = _ =>
        change (try_except m h)
          with (([ApiGet (cinder_context req) id;
                  ApiUpdate (cinder_context req) vol (mutable_part volume)],
                 Ok vol) : M dict)
    end.
    rewrite returned_bind, detail_view_is_summary_view.
    rewrite trace_bind, outcome_bind, Hview.
    by rewrite (summary_view_logs_once _ _ _ _ Hview).
  - intros k Hk. rewrite !elem_of_cons, elem_of_nil in Hk. rewrite Hcopy.
    + rewrite lookup_union, mutable_part_lookup.
      rewrite decide_True.
      * destruct (volume !! k), (vol !! k); done.
      * unfold mutable_fields. rewrite !elem_of_cons. tauto.
    + unfold copied_fields. rewrite !elem_of_cons. tauto.
  - intros k Hk Hmut. rewrite (Hcopy k Hk).
    rewrite lookup_union, mutable_part_lookup, decide_False by done.
    by destruct (vol !! k).
Qed.

Lemma update_view_merges_witness :
  ∃ view,
    outcome (VolumeController.update (H := sample_env) plain_controller
               user_request (VStr "fake")
               (body_of {["display_name" := VStr "new";
                          "size" := VInt 9]}))
    = Ok (VDict {["volume" := VDict view]})
    ∧ view !! "display_name" = Some (VStr "new")
    ∧ view !! "size" = Some (VInt 5).
Proof.
  destruct (update_view_merges (env := sample_env) plain_controller
              user_request (VStr "fake")
              {["volume" := VDict {["display_name" := VStr "new";
                                    "size" := VInt 9]}]}
              {["display_name" := VStr "new"; "size" := VInt 9]}
              fake_volume ltac:(by vm_compute) eq_refl eq_refl
              ltac:(by vm_compute))
    as (view & Hupd & Hmut & Hcopy).
  exists view. split; [exact (f_equal outcome Hupd)|]. split.
  - rewrite (Hmut "display_name") by (rewrite !elem_of_cons; tauto).
    by vm_compute.
  - rewrite (Hcopy "size").
    + by vm_compute.
    + unfold copied_fields. rewrite !elem_of_cons. tauto.
    + unfold mutable_fields. rewrite !elem_of_cons, elem_of_nil.
      intros [?|[?|[?|[]]]]; discriminate.
Defined.

(** ** [create] *)

(** X20: a create request that names a volume type stops at the type lookup
    when that fails: an unknown type ([VolumeTypeNotFound]) becomes the 404
    "Volume type not found.", any other error leaves [create] as it is.
    Nothing but the lookup has happened by then. *)
Theorem create_volume_type_error {env : Env} self req b volume e :
  b !! "volume" = Some (VDict volume) →
  truthy (dict_get volume "volume_type") = true →
  get_volume_type_by_name (cinder_context req)
    (dict_get volume "volume_type") = Raise e →
  VolumeController.create self req (VDict b)
  = ([GetVolumeTypeByName (cinder_context req)
        (dict_get volume "volume_type")],
     Raise (match e with
            | VolumeTypeNotFound =>
                HTTPNotFound (Some "Volume type not found.")
            | _ => e
            end)).
Proof.
  intros Hb Hty Hget. unfold VolumeController.create.
  rewrite (is_valid_body_dict _ _ _ Hb), (subscript_dict _ _ _ Hb).
  simpl negb. cbv iota. rewrite ret_bind, !get_dict, ret_bind, Hty, Hget.
  by destruct e.
Qed.

Lemma create_volume_type_error_witness :
  VolumeController.create (H := sample_env) plain_controller user_request
    (body_of {["volume_type" := VStr "silver"; "size" := VInt 1]})
  = ([GetVolumeTypeByName user_context (VStr "silver")],
     Raise (HTTPNotFound (Some "Volume type not found."))).
Proof.
  pose proof (create_volume_type_error (env := sample_env) plain_controller
                user_request
                {["volume" := VDict {["volume_type" := VStr "silver";
                                      "size" := VInt 1]}]}
                {["volume_type" := VStr "silver"; "size" := VInt 1]}
                VolumeTypeNotFound ltac:(by vm_compute) ltac:(by vm_compute)
                ltac:(by vm_compute)) as Hcreate.
  assert (dict_get {["volume_type" := VStr "silver"; "size" := VInt 1]}
            "volume_type" = VStr "silver") as Hty by (by vm_compute).
  rewrite Hty in Hcreate. exact Hcreate.
Defined.

Lemma dict_get_insert_ne (d : dict) (k k' : string) (v : val) :
  k ≠ k' → dict_get (<[k := v]> d) k' = dict_get d k'.
Proof. intros Hne. unfold dict_get. by rewrite lookup_insert_ne. Qed.

(** X21: without the image extension an image reference in the body is not
    looked at: the request is handled as if the reference were not there. *)
Theorem create_ignores_image_reference {env : Env} self req b volume
    image_href :
  b !! "volume" = Some (VDict volume) →
  VolumeController.ext_mgr_is_loaded self "os-image-create" = false →
  VolumeController.create self req
    (VDict (<["volume" := VDict (<["imageRef" := image_href]> volume)]> b))
  = VolumeController.create self req (VDict b).
Proof.
  intros Hb Hext. unfold VolumeController.create.
  rewrite (is_valid_body_dict _ _ _ Hb),
    (is_valid_body_dict _ (<["imageRef" := image_href]> volume))
    by apply lookup_insert_eq.
  rewrite (subscript_dict _ _ _ Hb),
    (subscript_dict _ _ (VDict (<["imageRef" := image_href]> volume)))
    by apply lookup_insert_eq.
  simpl negb. cbv iota. rewrite !ret_bind, !get_dict, Hext.
  by rewrite !dict_get_insert_ne by done.
Qed.

Lemma create_ignores_image_reference_witness :
  VolumeController.create (H := sample_env) plain_controller user_request
    (body_of {["imageRef" := VStr "not an image"; "size" := VInt 1]})
  = VolumeController.create (H := sample_env) plain_controller user_request
      (body_of {["size" := VInt 1]}).
Proof.
  assert (body_of {["imageRef" := VStr "not an image"; "size" := VInt 1]}
          = VDict (<["volume" := VDict (<["imageRef" := VStr "not an image"]>
                                          {["size" := VInt 1]})]>
                     {["volume" := VDict {["size" := VInt 1]}]})) as ->
    by (by vm_compute).
  apply (create_ignores_image_reference (env := sample_env)
           plain_controller user_request
           {["volume" := VDict {["size" := VInt 1]}]} {["size" := VInt 1]}
           (VStr "not an image")).
  - by vm_compute.
  - reflexivity.
Defined.

(** The blocks of [create] that fill the keyword arguments. *)
Lemma create_type_block {env : Env} ctx (req_volume_type : val)
    (kwargs : dict) :
  outcome (if truthy req_volume_type then
             vt ← try_except
                    (call (GetVolumeTypeByName ctx req_volume_type)
                          (get_volume_type_by_name ctx req_volume_type))
                    (λ e, match e with
                          | VolumeTypeNotFound =>
                              Some (raise (HTTPNotFound
                                             (Some "Volume type not found.")))
                          | _ => None
                          end);
             mret (<["volume_type" := vt]> (∅ : dict))
           else mret ∅) = Ok kwargs →
  (∀ k, k ≠ "volume_type" → kwargs !! k = None)
  ∧ match kwargs !! "volume_type" with
    | Some vt =>
        truthy req_volume_type = true
        ∧ get_volume_type_by_name ctx req_volume_type = Ok vt
    | None => truthy req_volume_type = false
    end.
Proof.
  destruct (truthy req_volume_type).
  - destruct (get_volume_type_by_name ctx req_volume_type) as [vt|e];
      [|by destruct e].
    intros [= <-]. split.
    + intros k Hk. by rewrite lookup_insert_ne, lookup_empty.
    + by rewrite lookup_insert_eq.
  - intros [= <-]. split; [intros; apply lookup_empty|].
    by rewrite lookup_empty.
Qed.

Lemma create_snapshot_block api ctx (snapshot_id : val) (kw1 kw2 : dict) :
  outcome (if negb (is_None snapshot_id) then
             snapshot ← call (ApiGetSnapshot ctx snapshot_id)
                             (api_get_snapshot api ctx snapshot_id);
             mret (<["snapshot" := snapshot]> kw1)
           else mret (<["snapshot" := VNone]> kw1)) = Ok kw2 →
  (∀ k, k ≠ "snapshot" → kw2 !! k = kw1 !! k)
  ∧ ∃ snapshot,
      kw2 !! "snapshot" = Some snapshot
      ∧ if is_None snapshot_id then snapshot = VNone
        else api_get_snapshot api ctx snapshot_id = Ok snapshot.
Proof.
  destruct (is_None snapshot_id); simpl negb; cbv iota.
  - intros [= <-]. split; [intros k Hk; by rewrite lookup_insert_ne|].
    exists VNone. by rewrite lookup_insert_eq.
  - destruct (api_get_snapshot api ctx snapshot_id) as [snapshot|e];
      [|done].
    intros [= <-]. split; [intros k Hk; by rewrite lookup_insert_ne|].
    exists snapshot. by rewrite lookup_insert_eq.
Qed.

Lemma create_image_block {env : Env} self (snapshot_id image_href : val)
    (kw2 kw3 : dict) (image_uuid : val) :
  outcome (if VolumeController.ext_mgr_is_loaded self "os-image-create" then
             (if truthy snapshot_id && truthy image_href then
                raise (HTTPBadRequest
                         "Snapshot and image cannot be specified together.")
              else mret ());;
             if truthy image_href then
               image_uuid ← VolumeController._image_uuid_from_href self
                              image_href;
               mret (VStr image_uuid, <["image_id" := VStr image_uuid]> kw2)
             else mret (VNone, kw2)
           else mret (VNone, kw2)) = Ok (image_uuid, kw3) →
  (∀ k, k ≠ "image_id" → kw3 !! k = kw2 !! k)
  ∧ if VolumeController.ext_mgr_is_loaded self "os-image-create"
       && truthy image_href
    then truthy snapshot_id = false
         ∧ ∃ s, image_href = VStr s
                ∧ is_uuid_like (split_pop s "") = true
                ∧ image_uuid = VStr (split_pop s "")
                ∧ kw3 !! "image_id" = Some image_uuid
    else image_uuid = VNone ∧ kw3 = kw2.
Proof.
  destruct (VolumeController.ext_mgr_is_loaded self "os-image-create");
    [|by intros [= <- <-]].
  destruct (truthy image_href) eqn:Href.
  - rewrite andb_true_r. destruct (truthy snapshot_id); [done|].
    rewrite ret_bind. destruct image_href as [| | |s| |]; try done.
    rewrite image_uuid_from_href_str.
    destruct (is_uuid_like (split_pop s "")) eqn:Huuid; [|done].
    rewrite ret_bind. intros [= <- <-]. split.
    + intros k Hk. by rewrite lookup_insert_ne.
    + split; [done|]. exists s. by rewrite lookup_insert_eq.
  - rewrite andb_false_r, ret_bind. by intros [= <- <-].
Qed.

(** The keyword arguments of a call of the service's create. *)
Lemma create_kwargs_inv {env : Env} self req b volume c size name desc
    kwargs :
  b !! "volume" = Some (VDict volume) →
  ApiCreate c size name desc kwargs
  ∈ trace (VolumeController.create self req (VDict b)) →
  (∀ k, is_Some (kwargs !! k) → k ∈ create_keywords)
  ∧ kwargs !! "metadata" = Some (dict_get volume "metadata")
  ∧ kwargs !! "availability_zone"
    = Some (dict_get volume "availability_zone")
  ∧ match kwargs !! "volume_type" with
    | Some vt =>
        truthy (dict_get volume "volume_type") = true
        ∧ get_volume_type_by_name (cinder_context req)
            (dict_get volume "volume_type") = Ok vt
    | None => truthy (dict_get volume "volume_type") = false
    end
  ∧ (∃ snapshot,
       kwargs !! "snapshot" = Some snapshot
       ∧ if is_None (dict_get volume "snapshot_id") then snapshot = VNone
         else api_get_snapshot (VolumeController.volume_api self)
                (cinder_context req) (dict_get volume "snapshot_id")
              = Ok snapshot)
  ∧ match kwargs !! "image_id" with
    | Some image_id =>
        VolumeController.ext_mgr_is_loaded self "os-image-create" = true
        ∧ truthy (dict_get volume "snapshot_id") = false
        ∧ ∃ s, dict_get volume "imageRef" = VStr s
               ∧ s ≠ ""
               ∧ is_uuid_like (split_pop s "") = true
               ∧ image_id = VStr (split_pop s "")
    | None =>
        VolumeController.ext_mgr_is_loaded self "os-image-create" = false
        ∨ truthy (dict_get volume "imageRef") = false
    end.
Proof.
  intros Hb Hev. unfold VolumeController.create in Hev.
  rewrite (is_valid_body_dict _ _ _ Hb), (subscript_dict _ _ _ Hb) in Hev.
  simpl negb in Hev. cbv iota in Hev. rewrite ret_bind, !get_dict in Hev.
  repeat first
    [ rewrite ret_bind in Hev
    | trace_step Hev
    | match type of Hev with
      | _ ∈ trace (_translate_volume_detail_view _ _ _) =>
          apply trace_detail_view in Hev
      | _ ∈ trace (VolumeController._image_uuid_from_href _ _) =>
          rewrite trace_image_uuid_from_href in Hev
      end ]; try done.
  injection Hev as -> -> -> -> ->.
  repeat match goal with
         | Hk : outcome (if truthy _ then _ else _) = Ok _ |- _ =>
             apply create_type_block in Hk as [Lt Ht]
         | Hk : outcome (if negb _ then _ else _) = Ok _ |- _ =>
             apply create_snapshot_block in Hk as [Ls (snapshot & Hs & Hsnap)]
         | Hk : outcome (if VolumeController.ext_mgr_is_loaded _ _
                         then _ else _) = Ok _ |- _ =>
             apply create_image_block in Hk as [Li Hi]
         end.
  assert (∀ (kw : dict) k,
            k ≠ "availability_zone" →
            <["availability_zone" := dict_get volume "availability_zone"]> kw
              !! k = kw !! k) as La
    by (intros kw k Hk; by rewrite lookup_insert_ne).
  split; [|split; [|split; [|split; [|split]]]].
  - intros k [x Hk]. unfold create_keywords. rewrite !elem_of_cons.
    destruct (decide (k = "availability_zone")) as [|Ha]; [tauto|].
    destruct (decide (k = "image_id")) as [|Hi']; [tauto|].
    destruct (decide (k = "snapshot")) as [|Hs']; [tauto|].
    destruct (decide (k = "metadata")) as [|Hm]; [tauto|].
    destruct (decide (k = "volume_type")) as [|Hv]; [tauto|].
    rewrite La, Li, Ls, lookup_insert_ne, Lt in Hk by done. done.
  - by rewrite La, Li, Ls, lookup_insert_eq.
  - by rewrite lookup_insert_eq.
  - by rewrite La, Li, Ls, lookup_insert_ne.
  - exists snapshot. by rewrite La, Li.
  - rewrite La by done.
    destruct (VolumeController.ext_mgr_is_loaded self "os-image-create");
      [|destruct Hi as [_ ->];
        rewrite Ls, lookup_insert_ne, Lt by done; by left].
    destruct (truthy (dict_get volume "imageRef")) eqn:Href;
      [|destruct Hi as [_ ->];
        rewrite Ls, lookup_insert_ne, Lt by done; by right].
    destruct Hi as (Hsid & s & Hs' & Huuid & -> & ->).
    split; [done|]. split; [done|]. exists s.
    split; [done|]. split; [|done].
    intros ->. by rewrite Hs' in Href.
Qed.

(** X22: what [create] hands to the volume service besides size, name and
    description. The keyword arguments hold the body's metadata and
    availability zone as they are, the snapshot that was looked up (or
    none), the volume type when one was named and found, and an image id
    only when the extension is loaded, no snapshot is named and the image
    reference is a non-empty text whose part after the last slash is
    uuid-like; that part is the image id. There is no other keyword. *)
Theorem create_service_arguments {env : Env} self req b volume c size name
    desc kwargs :
  b !! "volume" = Some (VDict volume) →
  ApiCreate c size name desc kwargs
  ∈ trace (VolumeController.create self req (VDict b)) →
  (∀ k, is_Some (kwargs !! k) → k ∈ create_keywords)
  ∧ kwargs !! "metadata" = Some (dict_get volume "metadata")
  ∧ kwargs !! "availability_zone"
    = Some (dict_get volume "availability_zone")
  ∧ match kwargs !! "volume_type" with
    | Some vt =>
        truthy (dict_get volume "volume_type") = true
        ∧ get_volume_type_by_name (cinder_context req)
            (dict_get volume "volume_type") = Ok vt
    | None => truthy (dict_get volume "volume_type") = false
    end
  ∧ (∃ snapshot,
       kwargs !! "snapshot" = Some snapshot
       ∧ if is_None (dict_get volume "snapshot_id") then snapshot = VNone
         else api_get_snapshot (VolumeController.volume_api self)
                (cinder_context req) (dict_get volume "snapshot_id")
              = Ok snapshot)
  ∧ match kwargs !! "image_id" with
    | Some image_id =>
        VolumeController.ext_mgr_is_loaded self "os-image-create" = true
        ∧ truthy (dict_get volume "snapshot_id") = false
        ∧ ∃ s, dict_get volume "imageRef" = VStr s
               ∧ s ≠ ""
               ∧ is_uuid_like (split_pop s "") = true
               ∧ image_id = VStr (split_pop s "")
    | None =>
        VolumeController.ext_mgr_is_loaded self "os-image-create" = false
        ∨ truthy (dict_get volume "imageRef") = false
    end.
Proof. apply create_kwargs_inv. Qed.

Lemma create_service_arguments_witness :
  ∃ kwargs,
    ApiCreate user_context (VInt 1) VNone VNone kwargs
    ∈ trace (VolumeController.create (H := sample_env) image_controller
               user_request (body_of volume_from_image))
    ∧ kwargs !! "image_id" = Some (VStr image_uuid_1)
    ∧ kwargs !! "metadata" = Some VNone.
Proof.
  assert (∃ kwargs tr,
            trace (VolumeController.create (H := sample_env) image_controller
                     user_request (body_of volume_from_image))
            = LogAudit "Create volume of %s GB" (VInt 1) user_context
              :: ApiCreate user_context (VInt 1) VNone VNone kwargs :: tr)
    as (kwargs & tr & Htr) by (eexists _, _; by vm_compute).
  assert (ApiCreate user_context (VInt 1) VNone VNone kwargs
          ∈ trace (VolumeController.create (H := sample_env) image_controller
                     user_request (body_of volume_from_image))) as Hev
    by (rewrite Htr; rewrite !elem_of_cons; tauto).
  exists kwargs. split; [exact Hev|].
  destruct (create_service_arguments (env := sample_env) image_controller
              user_request {["volume" := VDict volume_from_image]}
              volume_from_image _ _ _ _ _ ltac:(by vm_compute) Hev)
    as (_ & Hmeta & _ & _ & _ & Himage).
  split; [|exact Hmeta].
  destruct (kwargs !! "image_id") as [image_id|].
  - destruct Himage as (_ & _ & s & Hs & _ & _ & ->).
    vm_compute in Hs. injection Hs as <-. by vm_compute.
  - destruct Himage as [Hext|Href]; [by vm_compute in Hext|by vm_compute in Href].
Defined.

Lemma elem_of_trace_bind_r {A B} (m : M A) (k : A → M B) (a : A) ev :
  outcome m = Ok a → ev ∈ trace (k a) → ev ∈ trace (m ≫= k).
Proof.
  intros Ha Hev. rewrite trace_bind, Ha. apply elem_of_app. by right.
Qed.

(** What is known when [create] returns. *)
Lemma create_returns_inv {env : Env} self req b volume r :
  b !! "volume" = Some (VDict volume) →
  outcome (VolumeController.create self req (VDict b)) = Ok r →
  ∃ size kwargs new_volume view,
    ApiCreate (cinder_context req) size (dict_get volume "display_name")
      (dict_get volume "display_description") kwargs
    ∈ trace (VolumeController.create self req (VDict b))
    ∧ api_create (VolumeController.volume_api self) (cinder_context req)
        size (dict_get volume "display_name")
        (dict_get volume "display_description") kwargs = Ok new_volume
    ∧ outcome (_translate_volume_summary_view (cinder_context req)
                 new_volume (default VNone (kwargs !! "image_id")))
      = Ok view
    ∧ r = VDict {["volume" := VDict view]}.
Proof.
  intros Hb Hout. unfold VolumeController.create in Hout |- *.
  rewrite (is_valid_body_dict _ _ _ Hb), (subscript_dict _ _ _ Hb)
    in Hout |- *.
  simpl negb in Hout |- *. cbv iota in Hout |- *.
  rewrite ret_bind, !get_dict, ret_bind in Hout |- *.
  apply bind_Ok_inv in Hout as (kw0 & Hkw0 & Hout).
  rewrite !ret_bind in Hout.
  apply bind_Ok_inv in Hout as (kw2 & Hkw2 & Hout).
  rewrite !ret_bind in Hout.
  apply bind_Ok_inv in Hout as (snapshot & Hsnapshot & Hout).
  apply bind_Ok_inv in Hout as (size & Hsize & Hout).
  apply bind_Ok_inv in Hout as ([] & Haudit & Hout).
  apply bind_Ok_inv in Hout as ([image_uuid kw3] & Hkw3 & Hout).
  rewrite !ret_bind in Hout.
  apply bind_Ok_inv in Hout as (new_volume & Hnew & Hout).
  apply bind_Ok_inv in Hout as (view & Hview & Hout).
  apply mret_Ok_inv in Hout as <-.
  rewrite detail_view_is_summary_view in Hview.
  assert (api_create (VolumeController.volume_api self) (cinder_context req)
            size (dict_get volume "display_name")
            (dict_get volume "display_description")
            (<["availability_zone" := dict_get volume "availability_zone"]>
               kw3) = Ok new_volume) as Hcreate.
  { destruct (api_create _ _ _ _ _ _) as [v|e]; [|done].
    by injection Hnew as <-. }
  exists size, (<["availability_zone" :=
                    dict_get volume "availability_zone"]> kw3),
    new_volume, view.
  assert (default VNone
            (<["availability_zone" := dict_get volume "availability_zone"]>
               kw3 !! "image_id") = image_uuid) as ->.
  { rewrite lookup_insert_ne by done.
    pose proof Hkw0 as [Lt _]%create_type_block.
    pose proof Hkw2 as [Ls _]%create_snapshot_block.
    pose proof Hkw3 as [_ Hi]%create_image_block.
    destruct (VolumeController.ext_mgr_is_loaded self "os-image-create"
              && truthy (dict_get volume "imageRef")).
    - destruct Hi as (_ & s & _ & _ & _ & Hk). by rewrite Hk.
    - destruct Hi as [-> ->]. by rewrite Ls, lookup_insert_ne, Lt. }
  split; [|done].
  eapply elem_of_trace_bind_r; [exact Hkw0|]. rewrite !ret_bind.
  eapply elem_of_trace_bind_r; [exact Hkw2|]. rewrite !ret_bind.
  eapply elem_of_trace_bind_r; [exact Hsnapshot|].
  eapply elem_of_trace_bind_r; [exact Hsize|].
  eapply elem_of_trace_bind_r; [exact Haudit|].
  eapply elem_of_trace_bind_r; [exact Hkw3|]. cbv beta iota.
  rewrite !ret_bind, trace_bind. apply elem_of_app. left.
  by apply list_elem_of_singleton.
Qed.

(** X23: the answer of an accepted create request is the view of the record
    the volume service created, rendered with the image id that was handed
    to the service, under the key [volume]; the service's create was called
    with the body's display name and description. *)
Theorem create_response {env : Env} self req b volume r :
  b !! "volume" = Some (VDict volume) →
  outcome (VolumeController.create self req (VDict b)) = Ok r →
  ∃ size kwargs new_volume view,
    ApiCreate (cinder_context req) size (dict_get volume "display_name")
      (dict_get volume "display_description") kwargs
    ∈ trace (VolumeController.create self req (VDict b))
    ∧ api_create (VolumeController.volume_api self) (cinder_context req)
        size (dict_get volume "display_name")
        (dict_get volume "display_description") kwargs = Ok new_volume
    ∧ outcome (_translate_volume_summary_view (cinder_context req)
                 new_volume (default VNone (kwargs !! "image_id")))
      = Ok view
    ∧ r = VDict {["volume" := VDict view]}.
Proof. apply create_returns_inv. Qed.

Lemma create_response_witness :
  ∃ r view,
    outcome (VolumeController.create (H := sample_env) image_controller
               user_request (body_of volume_from_image)) = Ok r
    ∧ r = VDict {["volume" := VDict view]}.
Proof.
  assert (∃ r, outcome (VolumeController.create (H := sample_env)
                          image_controller user_request
                          (body_of volume_from_image)) = Ok r)
    as [r Hr] by (eexists; by vm_compute).
  destruct (create_response (env := sample_env) image_controller
              user_request {["volume" := VDict volume_from_image]}
              volume_from_image r ltac:(by vm_compute) Hr)
    as (size & kwargs & new_volume & view & _ & _ & _ & Hview).
  exists r, view. split; [exact Hr|exact Hview].
Defined.

(** X24: with the image extension loaded, a non-empty image reference that is
    not a text, or whose part after the last slash is not uuid-like, keeps
    the request from the volume service: [create] is never called on the
    service and the request fails. *)
Theorem create_invalid_image_reference {env : Env} self req b volume :
  b !! "volume" = Some (VDict volume) →
  VolumeController.ext_mgr_is_loaded self "os-image-create" = true →
  truthy (dict_get volume "imageRef") = true →
  (∀ s, dict_get volume "imageRef" = VStr s →
        is_uuid_like (split_pop s "") = false) →
  (∀ ev, ev ∈ trace (VolumeController.create self req (VDict b)) →
         is_ApiCreate ev = false)
  ∧ ∃ e, outcome (VolumeController.create self req (VDict b)) = Raise e.
Proof.
  intros Hb Hext Href Hbad.
  assert (∀ ev, ev ∈ trace (VolumeController.create self req (VDict b)) →
                is_ApiCreate ev = false) as Hno.
  { intros ev Hev. destruct ev; try done.
    destruct (create_kwargs_inv _ _ _ _ _ _ _ _ _ Hb Hev)
      as (_ & _ & _ & _ & _ & Himage).
    destruct (kwargs !! "image_id").
    - destruct Himage as (_ & _ & s & Hs & _ & Huuid & _).
      rewrite (Hbad s Hs) in Huuid. discriminate.
    - destruct Himage; congruence. }
  split; [exact Hno|].
  destruct (outcome (VolumeController.create self req (VDict b)))
    as [r|e] eqn:Hout; [|by eexists].
  destruct (create_returns_inv _ _ _ _ _ Hb Hout)
    as (size & kwargs & _ & _ & Hev & _).
  by apply Hno in Hev.
Qed.

Lemma create_invalid_image_reference_witness :
  (∀ ev, ev ∈ trace (VolumeController.create (H := sample_env)
                       image_controller user_request
                       (body_of {["size" := VInt 1;
                                  "imageRef" := VStr "images/42"]})) →
         is_ApiCreate ev = false)
  ∧ ∃ e, outcome (VolumeController.create (H := sample_env)
                    image_controller user_request
                    (body_of {["size" := VInt 1;
                               "imageRef" := VStr "images/42"]}))
         = Raise e.
Proof.
  apply (create_invalid_image_reference (env := sample_env) image_controller
           user_request
           {["volume" := VDict {["size" := VInt 1;
                                 "imageRef" := VStr "images/42"]}]}
           {["size" := VInt 1; "imageRef" := VStr "images/42"]}).
  - by vm_compute.
  - reflexivity.
  - by vm_compute.
  - intros s Hs. vm_compute in Hs. injection Hs as <-. by vm_compute.
Defined.

(** ** The XML deserializer, continued *)

Lemma getAttribute_Some (n : node) (attr : string) :
  getAttribute (Some n) attr
  = mret (default "" (snd <$> List.find (λ kv, String.eqb kv.1 attr)
                                        (attributes n))).
Proof. reflexivity. Qed.

(** What [_extract_volume] makes of a document with a volume element. *)
Lemma extract_volume_of_node {env : Env} (node volume_node : node) :
  CommonDeserializer.find_first_child_named (Some node) "volume"
  = mret (Some volume_node) →
  ∃ volume,
    CommonDeserializer._extract_volume node = mret volume
    ∧ (∀ attr a,
         attr ∈ recognized_attributes →
         getAttribute (Some volume_node) attr = mret a →
         volume !! attr = if String.eqb a "" then None else Some (VStr a))
    ∧ (∀ metadata_node,
         CommonDeserializer.find_first_child_named (Some volume_node)
           "metadata" = mret metadata_node →
         volume !! "metadata" = extract_metadata <$> metadata_node)
    ∧ (∀ k, is_Some (volume !! k) →
            k ∈ recognized_attributes ∨ k = "metadata").
Proof.
  intros Hnode. unfold CommonDeserializer._extract_volume.
  rewrite Hnode, ret_bind.
  change ["display_name"; "display_description"; "size"; "volume_type";
          "availability_zone"] with recognized_attributes.
  rewrite (extract_loop _ _ _ _ (λ attr _, getAttribute_Some volume_node attr)).
  rewrite !ret_bind. eexists. split; [reflexivity|].
  set (f := λ attr, default "" (snd <$> List.find (λ kv : string * string,
                                                     String.eqb kv.1 attr)
                                                  (attributes volume_node))).
  assert ("metadata" ∉ recognized_attributes) as Hmeta.
  { unfold recognized_attributes. rewrite !elem_of_cons, elem_of_nil.
    intros [?|[?|[?|[?|[?|[]]]]]]; discriminate. }
  split; [|split].
  - intros attr a Hattr Ha. rewrite getAttribute_Some in Ha.
    injection Ha as <-. fold (f attr).
    assert (attr ≠ "metadata") as Hne by (by intros ->).
    assert (∀ d : dict,
              match List.find (λ n, String.eqb (nodeName n) "metadata")
                              (childNodes volume_node) with
              | Some n => <["metadata" := extract_metadata n]> d
              | None => d
              end !! attr = d !! attr) as ->.
    { intros d. destruct (List.find _ _); [|done].
      by rewrite lookup_insert_ne. }
    rewrite extract_loop_lookup, decide_True, lookup_empty by done.
    unfold truthy. change (default "" _) with (f attr).
    by destruct (String.eqb (f attr) "").
  - intros metadata_node [= <-].
    destruct (List.find _ (childNodes volume_node)) as [n|].
    + by rewrite lookup_insert_eq.
    + by rewrite extract_loop_lookup, decide_False, lookup_empty.
  - intros k [v Hk].
    destruct (decide (k = "metadata")) as [|Hne]; [by right|]. left.
    assert (∀ d : dict,
              match List.find (λ n, String.eqb (nodeName n) "metadata")
                              (childNodes volume_node) with
              | Some n => <["metadata" := extract_metadata n]> d
              | None => d
              end !! k = d !! k) as Hd.
    { intros d. destruct (List.find _ _); [|done].
      by rewrite lookup_insert_ne. }
    rewrite Hd, extract_loop_lookup in Hk.
    destruct (decide (k ∈ recognized_attributes)); [done|].
    by rewrite lookup_empty in Hk.
Qed.

(** X25: what the create-request decoder reads from a document that has a
    volume element. It takes the five recognized attributes of the first
    volume element, each as a text and only when it is not empty, and the
    metadata of the element's first metadata child when there is one; the
    decoded volume has no other key. The result is wrapped as the body of
    the request. *)
Theorem extract_volume_fields {env : Env} (text : string)
    (node volume_node : node) :
  parseString text = Some node →
  CommonDeserializer.find_first_child_named (Some node) "volume"
  = mret (Some volume_node) →
  ∃ volume,
    CreateDeserializer.default text
    = mret (VDict {["body" := VDict {["volume" := VDict volume]}]})
    ∧ (∀ attr a,
         attr ∈ recognized_attributes →
         getAttribute (Some volume_node) attr = mret a →
         volume !! attr = if String.eqb a "" then None else Some (VStr a))
    ∧ (∀ metadata_node,
         CommonDeserializer.find_first_child_named (Some volume_node)
           "metadata" = mret metadata_node →
         volume !! "metadata" = extract_metadata <$> metadata_node)
    ∧ (∀ k, is_Some (volume !! k) →
            k ∈ recognized_attributes ∨ k = "metadata").
Proof.
  intros Hparse Hnode.
  destruct (extract_volume_of_node node volume_node Hnode)
    as (volume & Hvolume & Hfields).
  exists volume. split; [|exact Hfields].
  unfold CreateDeserializer.default.
  by rewrite Hparse, ret_bind, Hvolume, ret_bind.
Qed.

Lemma extract_volume_fields_witness :
  ∃ volume,
    CreateDeserializer.default (H := sample_env) "<volume size='1'/>"
    = mret (VDict {["body" := VDict {["volume" := VDict volume]}]})
    ∧ volume !! "size" = Some (VStr "1")
    ∧ volume !! "display_name" = None
    ∧ volume !! "metadata" = None.
Proof.
  destruct (extract_volume_fields (env := sample_env) "<volume size='1'/>"
              (document (Node "volume" [("size", "1")] []))
              (Node "volume" [("size", "1")] []) eq_refl eq_refl)
    as (volume & Hdefault & Hattr & Hmeta & _).
  exists volume. split; [exact Hdefault|]. split; [|split].
  - apply (Hattr "size" "1"); [|reflexivity].
    unfold recognized_attributes. rewrite !elem_of_cons. tauto.
  - apply (Hattr "display_name" ""); [|reflexivity].
    unfold recognized_attributes. rewrite !elem_of_cons. tauto.
  - apply (Hmeta None). reflexivity.
Defined.

(** X26: a document that parses but has no volume element is not refused as
    a client error: the decoder asks the missing element for an attribute
    and the [AttributeError] leaves [default]. *)
Theorem extract_volume_without_volume_node {env : Env} (text : string)
    (node : node) :
  parseString text = Some node →
  CommonDeserializer.find_first_child_named (Some node) "volume"
  = mret None →
  CreateDeserializer.default text = ([], Raise AttributeError)
  ∧ is_client_input_error AttributeError = false.
Proof.
  intros Hparse Hnode. split; [|done].
  unfold CreateDeserializer.default, CommonDeserializer._extract_volume.
  by rewrite Hparse, ret_bind, Hnode, ret_bind.
Qed.

Lemma extract_volume_without_volume_node_witness :
  CreateDeserializer.default (H := snapshot_env) "<snapshot/>"
  = ([], Raise AttributeError)
  ∧ is_client_input_error AttributeError = false.
Proof.
  apply (extract_volume_without_volume_node (env := snapshot_env)
           "<snapshot/>" (document (Node "snapshot" [] [])));
    reflexivity.
Defined.
